(** * TaterTot article collector: relevance scoring, sitemap resolution,
      deduplication and top-3 selection

    A shallow embedding of [backend/testCollector.py] (class
    [CustomArticleCollector]) and of the relevance checker of
    [backend/Relvance.py], together with the properties stated for them.

    Modelling conventions.
    - A Python [str] is a [string] of 8-bit characters; [str.lower] folds
      the ASCII letters [A-Z] (every configured keyword is ASCII).
    - A Python [float] is a binary64 [PrimFloat.float]; [+], [*] and [<] are
      the primitive IEEE operations, so rounding is the one Python performs.
    - The network and the third-party libraries (HTTP client, ElementTree,
      codecs, gzip, datetime parsing, newspaper, feedparser) are the fields
      of a [World] record: a function may fail where the library raises.
    - [print] calls are kept for [fetch_sitemap_articles] only, as a list of
      [message]s returned with the result; pauses ([time.sleep]) have no
      effect on the values computed and are left out. *)

From Stdlib Require Import Floats ZArith Lia Ascii String.
From stdpp Require Import base list strings gmap sorting.

Set Warnings "-inexact-float,-register-all,-clear-no-such-hyp".

(* ================================================================== *)
(** * Part I: the embedding                                            *)
(* ================================================================== *)

(** ** Python string operations *)

Definition lower_char (c : ascii) : ascii :=
  let n := nat_of_ascii c in
  if (65 <=? n)%nat && (n <=? 90)%nat then ascii_of_nat (n + 32) else c.

(** [s.lower()] *)
Fixpoint lower (s : string) : string :=
  match s with
  | EmptyString => EmptyString
  | String c s' => String (lower_char c) (lower s')
  end.

(** [needle in hay] on strings: some suffix of [hay] starts with [needle]. *)
Fixpoint contains (needle hay : string) : bool :=
  if String.prefix needle hay then true
  else match hay with
       | EmptyString => false
       | String _ hay' => contains needle hay'
       end.

(** [s.rstrip(ch)] for a one-character argument: every trailing [ch] goes. *)
Fixpoint rstrip (ch : ascii) (s : string) : string :=
  match s with
  | EmptyString => EmptyString
  | String c s' =>
      match rstrip ch s' with
      | EmptyString => if Ascii.eqb c ch then EmptyString else String c EmptyString
      | r => String c r
      end
  end.

(** [s.replace('Z', '+00:00')] *)
Fixpoint replace_Z (s : string) : string :=
  match s with
  | EmptyString => EmptyString
  | String c s' =>
      if Ascii.eqb c "Z" then "+00:00" +:+ replace_Z s' else String c (replace_Z s')
  end.

(** [x in l] for a list of strings. *)
Definition str_in (x : string) (l : list string) : bool :=
  existsb (String.eqb x) l.

(** The f-string [f"{a} {b}"]. *)
Definition fmt_pair (a b : string) : string := a +:+ " " +:+ b.

(** Specification of [in]: [needle] occurs somewhere inside [hay]. *)
Definition occurs_in (needle hay : string) : Prop :=
  exists pre post : string, hay = pre +:+ needle +:+ post.

(** A run of [n] copies of the character [ch]. *)
Fixpoint run (ch : ascii) (n : nat) : string :=
  match n with
  | O => EmptyString
  | S m => String ch (run ch m)
  end.

(** [ch] is one of the characters of [s]. *)
Fixpoint has_char (ch : ascii) (s : string) : bool :=
  match s with
  | EmptyString => false
  | String c s' => Ascii.eqb c ch || has_char ch s'
  end.

(** ** Data model *)

(** A naive [datetime], as seconds. *)
Definition datetime := Z.

Definition bytes := list Byte.byte.

Record ArticleCandidate := mkCandidate {
  title : string;
  url : string;
  publication : string;
  published_date : datetime;
  summary : string;
  author : string;
  relevance_score : float;
  keywords_found : list string;
  full_content : string
}.

(** One entry of [self.target_sources]. *)
Record SourceInfo := mkSource {
  base_url : string;
  rss_feeds : list string;
  sitemap_url : option string
}.

(** ** Keywords and the Stage-2 scorer *)

Definition luxury_keywords : list string :=
  [ "luxury"; "jewellery"; "fine jewellery"; "craftsmanship";
    "jewelry"; "diamond"; "engagement ring"; "wedding ring";
    "fashion"; "accessories"; "watches"; "timepiece";
    "necklace"; "bracelet"; "earrings"; "pendant"; "brooch";
    "gold"; "platinum"; "silver"; "emerald"; "sapphire"; "ruby";
    "cartier"; "tiffany"; "bulgari"; "chanel"; "dior"; "van cleef";
    "graff"; "harry winston"; "chopard"; "piaget"; "boucheron";
    "red carpet"; "celebrity"; "haute couture"; "collection";
    "launch"; "collaboration"; "limited edition"; "auction";
    "investment"; "trends"; "style"; "fashion week"; "royal"; "royals";
    "Luxury sector"; "Luxury marketing trends"; "Lab grown diamonds";
    "Diamond price"; "Gold price"; "jewels" ]%string.

(** The category lists of [calculate_relevance_score], in the order of its
    [if]/[elif] chain. *)
Definition core_priority_keywords : list string :=
  [ "jewellery"; "fine jewellery"; "craftsmanship"; "royal"; "royals";
    "fashion week"; "jewels" ]%string.

Definition primary_jewelry_terms : list string :=
  [ "jewelry"; "diamond"; "engagement ring"; "wedding ring"; "Lab grown diamonds";
    "Diamond price"; "Gold price"; "Luxury sector"; "Luxury marketing trends" ]%string.

Definition pieces_and_materials : list string :=
  [ "necklace"; "bracelet"; "earrings"; "pendant"; "brooch";
    "gold"; "platinum"; "silver"; "emerald"; "sapphire"; "ruby" ]%string.

Definition premium_brands : list string :=
  [ "cartier"; "tiffany"; "bulgari"; "chanel"; "dior"; "van cleef";
    "graff"; "harry winston"; "chopard"; "piaget"; "boucheron" ]%string.

Definition fashion_terms : list string :=
  [ "fashion"; "accessories"; "watches"; "timepiece"; "collection";
    "launch"; "haute couture"; "limited edition" ]%string.

Definition events_and_celebrity : list string :=
  [ "red carpet"; "celebrity"; "auction"; "luxury" ]%string.

Definition industry_terms : list string :=
  [ "collaboration"; "investment"; "trends"; "style" ]%string.

(** The amount one matched keyword adds to the score. *)
Definition keyword_weight (keyword : string) : float :=
  let k := lower keyword in
  if str_in k core_priority_keywords then 4.0%float
  else if str_in k primary_jewelry_terms then 5.0%float
  else if str_in k pieces_and_materials then 5.0%float
  else if str_in k premium_brands then 3.5%float
  else if str_in k fashion_terms then 2.5%float
  else if str_in k events_and_celebrity then 2.0%float
  else if str_in k industry_terms then 0.5%float
  else 1.0%float.

(** One iteration of [for keyword in self.luxury_keywords]; the state is
    [(score, found_keywords)]. *)
Definition score_step (combined_text : string) (st : float * list string)
    (keyword : string) : float * list string :=
  if contains (lower keyword) combined_text
  then ((st.1 + keyword_weight keyword)%float, st.2 ++ [keyword])
  else st.

(** The loop, from [score = 0.0] and [found_keywords = []]. *)
Definition score_loop (combined_text : string) (keywords : list string)
    : float * list string :=
  fold_left (score_step combined_text) keywords (0%float, []).

(** The two bonus multiplications. *)
Definition apply_bonus (n_found : nat) (score : float) : float :=
  let score := if (2 <? n_found)%nat then (score * 1.2)%float else score in
  if (4 <? n_found)%nat then (score * 1.4)%float else score.

(** STAGE 2: full content scoring. *)
Definition calculate_relevance_score (title content : string) : float * list string :=
  let combined_text := lower (fmt_pair title content) in
  let st := score_loop combined_text luxury_keywords in
  (apply_bonus (length st.2) st.1, st.2).

(** ** Domain validation *)

Definition core_luxury_terms : list string :=
  [ "jewellery"; "jewelry"; "jeweler"; "jeweller";
    "diamond"; "necklace"; "bracelet"; "earring"; "ring"; "brooch"; "pendant";
    "cartier"; "tiffany"; "bulgari"; "chanel"; "van cleef";
    "graff"; "harry winston"; "chopard"; "piaget"; "boucheron";
    "gemstone"; "emerald"; "sapphire"; "ruby"; "pearl";
    "fine jewellery"; "high jewelry"; "haute joaillerie";
    "luxury brand"; "luxury fashion"; "luxury goods" ]%string.

Definition is_luxury_relevant_content (title content : string) : bool :=
  let combined := lower (fmt_pair title content) in
  existsb (fun term => contains term combined) core_luxury_terms.

(** ** URL filter *)

Definition national_jeweler_excluded : list string :=
  [ "https://nationaljeweler.com/";
    "https://nationaljeweler.com/industry";
    "https://nationaljeweler.com/industry/industry-other";
    "https://nationaljeweler.com/industry/independents";
    "https://nationaljeweler.com/industry/events-awards";
    "https://nationaljeweler.com/industry/financials";
    "https://nationaljeweler.com/industry/supplier-bulletin";
    "https://nationaljeweler.com/industry/technology";
    "https://nationaljeweler.com/industry/surveys";
    "https://nationaljeweler.com/industry/policies-issues";
    "https://nationaljeweler.com/industry/crime";
    "https://nationaljeweler.com/industry/majors";
    "https://nationaljeweler.com/diamonds-gems";
    "https://nationaljeweler.com/diamonds-gems/diamonds-gems-other";
    "https://nationaljeweler.com/diamonds-gems/lab-grown";
    "https://nationaljeweler.com/diamonds-gems/grading";
    "https://nationaljeweler.com/diamonds-gems/sourcing";
    "https://nationaljeweler.com/style";
    "https://nationaljeweler.com/style/style-other";
    "https://nationaljeweler.com/style/trends";
    "https://nationaljeweler.com/style/auctions";
    "https://nationaljeweler.com/style/watches";
    "https://nationaljeweler.com/style/collections";
    "https://nationaljeweler.com/opinions";
    "https://nationaljeweler.com/opinions/editors";
    "https://nationaljeweler.com/opinions/columnists" ]%string.

Definition is_relevant_url (url : string) : bool :=
  let url_lower := lower url in
  let url_clean := rstrip "/" url in
  if str_in url_clean national_jeweler_excluded || str_in url national_jeweler_excluded
  then false
  else existsb (fun keyword => contains (lower keyword) url_lower) luxury_keywords.

(** ** The outside world *)

(** An [xml.etree.ElementTree] element; an element without text has the
    empty text. *)
Inductive Element := Elem (tag : string) (text : string) (children : list Element).

Definition elem_tag (e : Element) : string := match e with Elem t _ _ => t end.
Definition elem_text (e : Element) : string := match e with Elem _ x _ => x end.
Definition elem_children (e : Element) : list Element := match e with Elem _ _ k => k end.

(** [e.find('.//' + t)]: the first descendant of [e] with tag [t], in
    document order. *)
Fixpoint find_descendant (t : string) (e : Element) : option Element :=
  match e with
  | Elem _ _ kids =>
      (fix go (l : list Element) : option Element :=
         match l with
         | [] => None
         | k :: rest =>
             if String.eqb (elem_tag k) t then Some k
             else match find_descendant t k with
                  | Some r => Some r
                  | None => go rest
                  end
         end) kids
  end.

Definition ns_loc : string := "{http://www.sitemaps.org/schemas/sitemap/0.9}loc".
Definition ns_lastmod : string := "{http://www.sitemaps.org/schemas/sitemap/0.9}lastmod".

(** An HTTP response: [status_code], [text] (decoded by the transport
    layer) and [content] (the raw body). *)
Record Response := mkResponse {
  status_code : Z;
  text : string;
  content : bytes
}.

(** A [newspaper.Article] after [parse()]. *)
Record ParsedArticle := mkArticle {
  art_title : string;
  art_text : string;
  art_authors : list string;
  meta_description : string
}.

(** The result of a call that may raise; [Raise] carries [str(e)]. *)
Inductive outcome (A : Type) :=
| Return (a : A)
| Raise (error_msg : string).
Arguments Return {A} a.
Arguments Raise {A} error_msg.

Record World := mkWorld {
  (** [self.make_request(url, timeout)], which re-raises request errors *)
  make_request : string -> Z -> outcome Response;
  (** [ET.fromstring] on a [str] and on [bytes]; [None] is [ET.ParseError] *)
  ET_fromstring : string -> option Element;
  ET_fromstring_bytes : bytes -> option Element;
  (** [b.decode('utf-8')]; [None] is [UnicodeDecodeError] *)
  decode_utf8 : bytes -> option string;
  (** [b.decode('iso-8859-1')], which accepts every byte *)
  decode_latin1 : bytes -> string;
  (** [gzip.decompress]; [None] when it raises *)
  gzip_decompress : bytes -> option bytes;
  (** [datetime.fromisoformat(s).replace(tzinfo=None)] and
      [datetime.strptime(s, '%Y-%m-%d').replace(tzinfo=None)] *)
  fromisoformat : string -> option datetime;
  strptime_ymd : string -> option datetime;
  (** [datetime.now()] *)
  now : datetime;
  (** [self.try_rss_feed(publication, feed_url)], which never raises *)
  try_rss_feed : string -> string -> list ArticleCandidate;
  (** [Article(url)] given the downloaded html, then [parse()] *)
  article_parse : string -> string -> option ParsedArticle;
  (** [self.extract_author(article, text)] *)
  extract_author : ParsedArticle -> string -> string
}.

(** ** Sitemap resolution *)

(** The date of a [lastmod] element. *)
Definition lastmod_date (w : World) (lastmod_str : string) : datetime :=
  let parsed :=
    if contains "T" lastmod_str
    then fromisoformat w (replace_Z lastmod_str)
    else strptime_ymd w (String.substring 0 10 lastmod_str) in
  match parsed with
  | Some d => d
  | None => now w
  end.

(** The body of the loop over the children of a document: the pair
    appended to [urls], if any. *)
Definition url_entry (w : World) (url_elem : Element) : option (string * datetime) :=
  match find_descendant ns_loc url_elem with
  | Some loc_elem =>
      let url := elem_text loc_elem in
      let lastmod :=
        match find_descendant ns_lastmod url_elem with
        | Some lastmod_elem => lastmod_date w (elem_text lastmod_elem)
        | None => now w
        end in
      Some (url, lastmod)
  | None => None
  end.

Definition fetch_urls_from_sitemap (w : World) (sitemap_url : string)
    : list (string * datetime) :=
  match make_request w sitemap_url 10 with
  | Raise _ => []
  | Return response =>
      if (status_code response =? 200)%Z then
        match ET_fromstring_bytes w (content response) with
        | Some root => omap (url_entry w) (elem_children root)
        | None => []
        end
      else []
  end.

(** One decoding strategy of [fetch_sitemap_articles]: parse the decoded
    text if there is one. *)
Definition parse_decoded (w : World) (decoded : option string)
    : option (string * Element) :=
  match decoded with
  | Some xml_content =>
      match ET_fromstring w xml_content with
      | Some root => Some (xml_content, root)
      | None => None
      end
  | None => None
  end.

(** The four [try] blocks, each run only [if xml_content is None]; the
    result is [(xml_content, root)]. *)
Definition decode_sitemap (w : World) (response : Response)
    : option (string * Element) :=
  (* Strategy 1: response.text *)
  let st := parse_decoded w (Some (text response)) in
  (* Strategy 2: raw content as UTF-8 *)
  let st := match st with
            | Some r => Some r
            | None => parse_decoded w (decode_utf8 w (content response))
            end in
  (* Strategy 3: raw content as ISO-8859-1 *)
  let st := match st with
            | Some r => Some r
            | None => parse_decoded w (Some (decode_latin1 w (content response)))
            end in
  (* Strategy 4: gzip.decompress, then UTF-8 *)
  match st with
  | Some r => Some r
  | None =>
      match gzip_decompress w (content response) with
      | Some decompressed => parse_decoded w (decode_utf8 w decompressed)
      | None => None
      end
  end.

(** The list [urls] built from the parsed root. *)
Definition sitemap_urls (w : World) (root : Element) : list (string * datetime) :=
  if contains "sitemapindex" (elem_tag root) then
    flat_map
      (fun sitemap =>
         match find_descendant ns_loc sitemap with
         | Some loc_elem => fetch_urls_from_sitemap w (elem_text loc_elem)
         | None => []
         end)
      (elem_children root)
  else if contains "urlset" (elem_tag root) then
    omap (url_entry w) (elem_children root)
  else [].

(** The candidate made for a relevant sitemap URL. *)
Definition sitemap_candidate (publication : string) (entry : string * datetime)
    : ArticleCandidate :=
  {| title := ""; url := entry.1; publication := publication;
     published_date := entry.2; summary := ""; author := "Unknown";
     relevance_score := 0.0%float; keywords_found := []; full_content := "" |}.

Definition relevant_candidates (publication : string)
    (urls : list (string * datetime)) : list ArticleCandidate :=
  map (sitemap_candidate publication)
      (List.filter (fun entry => is_relevant_url entry.1) urls).

(** What [fetch_sitemap_articles] prints. *)
Inductive message :=
| SitemapCannotParse                 (* Sitemap error: Cannot parse XML *)
| SitemapFoundTotal (n : nat)        (* Found n total URLs in sitemap *)
| SitemapFoundRelevant (n : nat)     (* Sitemap: Found n relevant URLs by URL filtering *)
| SitemapError (error_msg : string). (* Sitemap error: str(e)[:100] *)

Definition fetch_sitemap_articles (w : World) (publication sitemap_url : string)
    : list ArticleCandidate * list message :=
  match make_request w sitemap_url 15 with
  | Raise error_msg => ([], [SitemapError (String.substring 0 100 error_msg)])
  | Return response =>
      if negb (status_code response =? 200)%Z then ([], [])
      else
        match decode_sitemap w response with
        | None => ([], [SitemapCannotParse])
        | Some (_, root) =>
            let urls := sitemap_urls w root in
            let candidates := relevant_candidates publication urls in
            (candidates,
             SitemapFoundTotal (length urls) ::
             match candidates with
             | [] => []
             | _ => [SitemapFoundRelevant (length candidates)]
             end)
        end
  end.

(** ** Collecting the candidates of one source *)

Definition try_multiple_rss_feeds (w : World) (publication : string)
    (feed_urls : list string) : list ArticleCandidate :=
  flat_map (try_rss_feed w publication) feed_urls.

(** [all_candidates] just before the duplicates are removed: the sitemap
    candidates, followed by the feed candidates when the feeds are tried. *)
Definition merged_candidates (w : World) (publication : string)
    (source_info : SourceInfo) : list ArticleCandidate :=
  let sitemap_candidates :=
    match sitemap_url source_info with
    | Some u => if String.eqb u "" then [] else (fetch_sitemap_articles w publication u).1
    | None => []
    end in
  let sitemap_tried :=
    match sitemap_url source_info with
    | Some u => negb (String.eqb u "")
    | None => false
    end in
  let sitemap_succeeded :=
    match sitemap_candidates with [] => false | _ => true end in
  let should_try_rss :=
    negb sitemap_tried || negb sitemap_succeeded
    || (length sitemap_candidates <? 10)%nat in
  if should_try_rss && match rss_feeds source_info with [] => false | _ => true end
  then sitemap_candidates ++ try_multiple_rss_feeds w publication (rss_feeds source_info)
  else sitemap_candidates.

(** One iteration of the loop that removes duplicates; the state is
    [(unique_candidates, seen_urls)]. *)
Definition dedup_step (st : list ArticleCandidate * gset string)
    (candidate : ArticleCandidate) : list ArticleCandidate * gset string :=
  if decide (url candidate ∈ st.2) then st
  else (st.1 ++ [candidate], st.2 ∪ {[ url candidate ]}).

Definition remove_duplicates (all_candidates : list ArticleCandidate)
    : list ArticleCandidate :=
  (fold_left dedup_step all_candidates ([], ∅)).1.

Definition collect_from_source (w : World) (publication : string)
    (source_info : SourceInfo) : list ArticleCandidate :=
  remove_duplicates (merged_candidates w publication source_info).

(** ** Content stage and selection *)

Definition extract_full_content (w : World) (candidate : ArticleCandidate)
    : option ArticleCandidate :=
  match make_request w (url candidate) 20 with
  | Raise _ => None
  | Return response =>
      if negb (status_code response =? 200)%Z then None
      else
        match article_parse w (url candidate) (text response) with
        | None => None
        | Some article =>
            if String.eqb (art_text article) ""
               || (String.length (art_text article) <? 150)%nat
            then None
            else
              let new_title :=
                if String.eqb (title candidate) "" && negb (String.eqb (art_title article) "")
                then art_title article else title candidate in
              let scored := calculate_relevance_score new_title (art_text article) in
              Some {| title := new_title;
                      url := url candidate;
                      publication := publication candidate;
                      published_date := published_date candidate;
                      summary :=
                        if negb (String.eqb (meta_description article) "")
                           && (String.length (summary candidate)
                               <? String.length (meta_description article))%nat
                        then meta_description article else summary candidate;
                      author := extract_author w article (art_text article);
                      relevance_score := scored.1;
                      keywords_found := scored.2;
                      full_content := art_text article |}
        end
  end.

(** STAGE 2 of [collect_top_3_per_publication]: the download loop over
    [enumerate(candidates[:max_downloads])], with its [break]. *)
Fixpoint download_loop (w : World) (idx : nat) (candidates : list ArticleCandidate)
    (publication_articles : list ArticleCandidate) : list ArticleCandidate :=
  match candidates with
  | [] => publication_articles
  | candidate :: rest =>
      let publication_articles :=
        match extract_full_content w candidate with
        | Some enhanced => publication_articles ++ [enhanced]
        | None => publication_articles
        end in
      if (99 <=? idx)%nat then publication_articles
      else download_loop w (S idx) rest publication_articles
  end.

Definition download_and_score (w : World) (candidates : list ArticleCandidate)
    : list ArticleCandidate :=
  let max_downloads := Nat.min (length candidates) 100 in
  download_loop w 0 (take max_downloads candidates) [].

(** [l.sort(key=lambda x: x.relevance_score, reverse=True)]: the sort
    compares keys with [<] only and is stable, also when reversed.  It is
    modelled by a stable insertion: [x], which comes before the elements
    of [sorted] in the input, goes in front of the first element whose
    score is not greater than its own. *)
Fixpoint insert_by_score (x : ArticleCandidate) (sorted : list ArticleCandidate)
    : list ArticleCandidate :=
  match sorted with
  | [] => [x]
  | y :: rest =>
      if (relevance_score x <? relevance_score y)%float
      then y :: insert_by_score x rest
      else x :: y :: rest
  end.

Fixpoint sort_by_score_desc (l : list ArticleCandidate) : list ArticleCandidate :=
  match l with
  | [] => []
  | x :: rest => insert_by_score x (sort_by_score_desc rest)
  end.

(** STAGE 3: [final_3]. *)
Definition select_top_3 (publication_articles : list ArticleCandidate)
    : list ArticleCandidate :=
  take 3 (sort_by_score_desc publication_articles).

(** [target_sources[publication]] in a table kept in insertion order. *)
Fixpoint lookup_source (target_sources : list (string * SourceInfo))
    (publication : string) : option SourceInfo :=
  match target_sources with
  | [] => None
  | (name, info) :: rest =>
      if String.eqb name publication then Some info else lookup_source rest publication
  end.

(** The contribution of one publication to [all_articles]. *)
Definition publication_top_3 (w : World) (publication : string)
    (source_info : SourceInfo) : list ArticleCandidate :=
  match collect_from_source w publication source_info with
  | [] => []
  | candidates => select_top_3 (download_and_score w candidates)
  end.

Definition collect_top_3_per_publication (w : World)
    (target_sources : list (string * SourceInfo))
    (sources_subset : option (list string)) : list ArticleCandidate :=
  let sources_to_use :=
    match sources_subset with
    | Some (s :: l) => s :: l
    | _ => map fst target_sources
    end in
  flat_map
    (fun publication =>
       match lookup_source target_sources publication with
       | None => []
       | Some source_info => publication_top_3 w publication source_info
       end)
    sources_to_use.

(** ** Auxiliary definitions used in the proofs *)

(** The first denylist entry without its trailing slash. *)
Definition nj_root : string := "https://nationaljeweler.com".

(** The comparison behind the primitive [<?], [<=?] and [=?]. *)
Definition fcompare (x y : float) : option comparison :=
  SFcompare (Prim2SF x) (Prim2SF y).

(** Scores before the bonus are sums of halves: [half n] is the float
    [n / 2], built with the float addition itself. *)
Fixpoint half (n : nat) : float :=
  match n with
  | O => 0%float
  | S m => (half m + 0.5)%float
  end.

(** The weight of a keyword counted in halves, branch by branch as in
    [keyword_weight]. *)
Definition weight_units (keyword : string) : nat :=
  let k := lower keyword in
  if str_in k core_priority_keywords then 8
  else if str_in k primary_jewelry_terms then 10
  else if str_in k pieces_and_materials then 10
  else if str_in k premium_brands then 7
  else if str_in k fashion_terms then 5
  else if str_in k events_and_celebrity then 4
  else if str_in k industry_terms then 1
  else 2.

Definition unit_values : list nat := [8; 10; 7; 5; 4; 1; 2].

(** The keywords of a list that occur in a text, in list order. *)
Definition matched (combined_text : string) (keywords : list string) : list string :=
  List.filter (fun keyword => contains (lower keyword) combined_text) keywords.

Definition units_sum (keywords : list string) : nat :=
  foldr (fun keyword acc => weight_units keyword + acc) 0 keywords.

(** Which multiplications [apply_bonus] performs for a number of matches:
    none, the first, or both. *)
Definition bonus_class (n_found : nat) : nat :=
  if (4 <? n_found)%nat then 2 else if (2 <? n_found)%nat then 1 else 0.

(** The score for [n] halves in a bonus class. *)
Definition grid_score (i n : nat) : float :=
  match i with
  | 0 => half n
  | 1 => (half n * 1.2)%float
  | _ => (half n * 1.2 * 1.4)%float
  end.

(** Sums stay below [grid_max] halves: at most 56 keywords of weight at
    most 5.0. *)
Definition grid_max : nat := 560.

(** The configured keywords written with capital letters. *)
Definition mixed_case_keywords : list string :=
  [ "Luxury sector"; "Luxury marketing trends"; "Lab grown diamonds";
    "Diamond price"; "Gold price" ]%string.

(** The first candidate of a list that carries a given URL. *)
Definition first_with_url (u : string) (l : list ArticleCandidate)
    : option ArticleCandidate :=
  List.find (fun candidate => String.eqb (url candidate) u) l.

(** A candidate as the sitemap and feed stages build it: unscored, with
    empty summary, author and content. *)
Definition stub_candidate (t u : string) : ArticleCandidate :=
  {| title := t; url := u; publication := "JCK"; published_date := 0%Z;
     summary := EmptyString; author := EmptyString; relevance_score := 0%float;
     keywords_found := []; full_content := EmptyString |}.

(** [a] does not score below [b], in the order of the floats. *)
Definition score_ge (a b : ArticleCandidate) : Prop :=
  (relevance_score b <=? relevance_score a)%float = true.

(** The score of a candidate is a number. *)
Definition scored (candidate : ArticleCandidate) : Prop :=
  is_nan (relevance_score candidate) = false.

(** The candidates of a list whose score equals [v], in list order. *)
Definition with_score (v : float) (l : list ArticleCandidate) : list ArticleCandidate :=
  List.filter (fun candidate => (relevance_score candidate =? v)%float) l.

(** A downloaded article reduced to its title and score. *)
Definition rated_candidate (t : string) (score : float) : ArticleCandidate :=
  {| title := t; url := "https://x.test/" +:+ t; publication := "JCK";
     published_date := 0%Z; summary := EmptyString; author := EmptyString;
     relevance_score := score; keywords_found := []; full_content := EmptyString |}.

(** ** Title scoring *)

(** [float(n)] for the length of a list. *)
Definition float_of_len (n : nat) : float :=
  PrimFloat.of_uint63 (Uint63.of_Z (Z.of_nat n)).

(** STAGE 1: title scoring, one point per keyword found in the title or
    the URL. *)
Definition calculate_title_relevance_score (title url : string) : float * list string :=
  let combined_text := lower (fmt_pair title url) in
  let found_keywords :=
    fold_left
      (fun found keyword =>
         if contains (lower keyword) combined_text then found ++ [keyword] else found)
      luxury_keywords [] in
  ((float_of_len (length found_keywords) * 1.0)%float, found_keywords).

(** The sitemap candidates of a source, as [collect_from_source] obtains
    them: none without a configured sitemap. *)
Definition sitemap_part (w : World) (publication : string) (source_info : SourceInfo)
    : list ArticleCandidate :=
  match sitemap_url source_info with
  | Some u => if String.eqb u "" then [] else (fetch_sitemap_articles w publication u).1
  | None => []
  end.

(** The URL of a candidate is not among the URLs of [l]. *)
Definition url_not_in (l : list ArticleCandidate) (candidate : ArticleCandidate) : bool :=
  negb (str_in (url candidate) (map url l)).

(** ** The decoding attempts, as a list *)

(** The decoded texts the four strategies would parse, in the order in
    which [fetch_sitemap_articles] tries them; [None] where the decoding
    itself fails. *)
Definition decode_attempts (w : World) (response : Response) : list (option string) :=
  [ Some (text response);
    decode_utf8 w (content response);
    Some (decode_latin1 w (content response));
    match gzip_decompress w (content response) with
    | Some decompressed => decode_utf8 w decompressed
    | None => None
    end ].

(** The first attempt that decodes and parses. *)
Fixpoint first_parsed (w : World) (attempts : list (option string))
    : option (string * Element) :=
  match attempts with
  | [] => None
  | decoded :: rest =>
      match parse_decoded w decoded with
      | Some r => Some r
      | None => first_parsed w rest
      end
  end.

(** ** A closed world for the examples *)

Fixpoint assoc {A : Type} (key : string) (table : list (string * A)) : option A :=
  match table with
  | [] => None
  | (k, v) :: rest => if String.eqb k key then Some v else assoc key rest
  end.

(** A site: XML documents and article pages, both keyed by URL.  Every
    request succeeds with status 200; the raw body of a URL is the URL
    itself and [transport_text] is what the transport layer makes of it.
    A text parses as XML when it is the URL of a document, and a URL
    parses as an article when it is a page.  There are no feeds. *)
Definition site_world_with (transport_text : string -> string)
    (documents : list (string * Element))
    (pages : list (string * ParsedArticle)) : World :=
  {| make_request := fun url _ =>
       Return {| status_code := 200; text := transport_text url;
                 content := String.list_byte_of_string url |};
     ET_fromstring := fun xml_content => assoc xml_content documents;
     ET_fromstring_bytes := fun b => assoc (String.string_of_list_byte b) documents;
     decode_utf8 := fun b => Some (String.string_of_list_byte b);
     decode_latin1 := String.string_of_list_byte;
     gzip_decompress := fun _ => None;
     fromisoformat := fun _ => None;
     strptime_ymd := fun _ => None;
     now := 0%Z;
     try_rss_feed := fun _ _ => [];
     article_parse := fun url _ => assoc url pages;
     extract_author := fun article _ =>
       match art_authors article with
       | a :: _ => a
       | [] => "Unknown"%string
       end |}.

Definition site_world := site_world_with (fun url => url).

Definition xml_entry (entry_tag u : string) : Element :=
  Elem entry_tag "" [Elem ns_loc u []].

Definition xml_urlset (urls : list string) : Element :=
  Elem "{http://www.sitemaps.org/schemas/sitemap/0.9}urlset" ""
       (map (xml_entry "{http://www.sitemaps.org/schemas/sitemap/0.9}url") urls).

Definition xml_sitemapindex (sitemaps : list string) : Element :=
  Elem "{http://www.sitemaps.org/schemas/sitemap/0.9}sitemapindex" ""
       (map (xml_entry "{http://www.sitemaps.org/schemas/sitemap/0.9}sitemap") sitemaps).

(** An index with a url-set child and a child that is an index itself. *)
Definition demo_documents : list (string * Element) :=
  [ ("https://x.test/sitemap.xml",
     xml_sitemapindex ["https://x.test/news.xml"; "https://x.test/archive.xml"]);
    ("https://x.test/news.xml",
     xml_urlset ["https://x.test/gold-market"; "https://x.test/about"]);
    ("https://x.test/archive.xml",
     xml_sitemapindex ["https://x.test/archive-jewelry-2023.xml"]);
    ("https://x.test/archive-jewelry-2023.xml",
     xml_urlset ["https://x.test/2023/diamond-sale"]) ]%string.

(** One article page; neither its title nor its text names a keyword. *)
Definition demo_pages : list (string * ParsedArticle) :=
  [ ("https://x.test/gold-market",
     {| art_title := "Weekly market notes";
        art_text := "Prices moved sideways. " +:+ run "." 150;
        art_authors := ["A. Writer"];
        meta_description := "Notes" |}) ]%string.

Definition demo_world : World := site_world demo_documents demo_pages.

(** The same site behind a transport layer that garbles every body. *)
Definition garbled_world : World :=
  site_world_with (fun _ => "?"%string) demo_documents demo_pages.

Definition demo_sources : list (string * SourceInfo) :=
  [ ("Demo",
     {| base_url := "https://x.test"; rss_feeds := [];
        sitemap_url := Some "https://x.test/sitemap.xml" |}) ]%string.

(** ** Searching a sitemap for one URL *)

(** The exceptions [search_url_in_sitemap] can catch in its outer [try],
    of which the result shows [str(e)[:100]]. *)
Inductive search_exception :=
| RequestFailed (error_msg : string)   (* raised by [make_request] *)
| RootUnbound                          (* [root] read before any parse succeeded *)
| UrlIsNone.                           (* [.rstrip] on the text of an empty element *)

(** The dictionary returned by [search_url_in_sitemap]. *)
Inductive search_result :=
| PublicationNotFound (publication : string)
| NoSitemapConfigured
| FetchFailed (status : Z)
| CouldNotParse
| SearchError (e : search_exception)
| UrlFound (found_url : string) (is_relevant : bool) (total_urls_in_sitemap : nat)
| UrlNotFound (total_urls_in_sitemap : nat) (search_url : string).

(** The decoding blocks of [search_url_in_sitemap].  The state is
    [(xml_content, root)]; [xml_content] is assigned before the parse is
    tried and the handlers only [pass], so a failed parse leaves
    [xml_content] set and [root] unbound.  The result is [None] when the
    last block returns the parse error. *)
Definition search_decode (w : World) (response : Response)
    : option (option Element) :=
  (* first block: response.text *)
  let st : option string * option Element :=
    (Some (text response), ET_fromstring w (text response)) in
  (* second block: raw content as UTF-8, if xml_content is None *)
  let st :=
    match st.1 with
    | Some _ => st
    | None =>
        match decode_utf8 w (content response) with
        | Some xml_content => (Some xml_content, ET_fromstring w xml_content)
        | None => st
        end
    end in
  (* third block: gzip, if xml_content is None *)
  match st.1 with
  | Some _ => Some st.2
  | None =>
      match gzip_decompress w (content response) with
      | Some decompressed =>
          match decode_utf8 w decompressed with
          | Some xml_content =>
              match ET_fromstring w xml_content with
              | Some root => Some (Some root)
              | None => None
              end
          | None => None
          end
      | None => None
      end
  end.

(** [all_urls]; a url-set entry gets the current time, whatever its
    [lastmod]. *)
Definition search_all_urls (w : World) (root : Element) : list (string * datetime) :=
  if contains "sitemapindex" (elem_tag root) then
    flat_map
      (fun sitemap =>
         match find_descendant ns_loc sitemap with
         | Some loc_elem => fetch_urls_from_sitemap w (elem_text loc_elem)
         | None => []
         end)
      (elem_children root)
  else if contains "urlset" (elem_tag root) then
    omap
      (fun url_elem =>
         match find_descendant ns_loc url_elem with
         | Some loc_elem => Some (elem_text loc_elem, now w)
         | None => None
         end)
      (elem_children root)
  else [].

(** The search loop with its [break].  The text of an element without
    text is [None] in Python (the empty string here), on which [.rstrip]
    raises. *)
Fixpoint search_loop (search_url : string) (all_urls : list (string * datetime))
    : outcome (option string) :=
  match all_urls with
  | [] => Return None
  | (url, _) :: rest =>
      if String.eqb url "" then Raise "AttributeError"
      else if String.eqb url search_url
              || String.eqb (rstrip "/" search_url) (rstrip "/" url)
      then Return (Some url)
      else search_loop search_url rest
  end.

Definition search_url_in_sitemap (w : World)
    (target_sources : list (string * SourceInfo))
    (publication search_url : string) : search_result :=
  match lookup_source target_sources publication with
  | None => PublicationNotFound publication
  | Some source_info =>
      match sitemap_url source_info with
      | None => NoSitemapConfigured
      | Some sitemap_url =>
          if String.eqb sitemap_url "" then NoSitemapConfigured
          else
            match make_request w sitemap_url 15 with
            | Raise error_msg => SearchError (RequestFailed error_msg)
            | Return response =>
                if negb (status_code response =? 200)%Z
                then FetchFailed (status_code response)
                else
                  match search_decode w response with
                  | None => CouldNotParse
                  | Some None => SearchError RootUnbound
                  | Some (Some root) =>
                      let all_urls := search_all_urls w root in
                      match search_loop search_url all_urls with
                      | Raise _ => SearchError UrlIsNone
                      | Return (Some found_url) =>
                          UrlFound found_url (is_relevant_url found_url)
                                   (length all_urls)
                      | Return None => UrlNotFound (length all_urls) search_url
                      end
                  end
            end
      end
  end.

(** The candidate the sitemap stage makes for the demo page, and the
    article the content stage makes of it. *)
Definition demo_candidate : ArticleCandidate :=
  sitemap_candidate "Demo" ("https://x.test/gold-market"%string, 0%Z).

Definition demo_enhanced : ArticleCandidate :=
  {| title := "Weekly market notes"; url := "https://x.test/gold-market";
     publication := "Demo"; published_date := 0%Z; summary := "Notes";
     author := "A. Writer"; relevance_score := 0%float; keywords_found := [];
     full_content := "Prices moved sideways. " +:+ run "." 150 |}.

(** ** Feed entries *)

(** [c.isspace()] for a character below U+0100. *)
Definition is_space (c : ascii) : bool :=
  let n := nat_of_ascii c in
  ((9 <=? n)%nat && (n <=? 13)%nat) || ((28 <=? n)%nat && (n <=? 32)%nat)
  || (n =? 133)%nat || (n =? 160)%nat.

Fixpoint lstrip_ws (s : string) : string :=
  match s with
  | EmptyString => EmptyString
  | String c s' => if is_space c then lstrip_ws s' else s
  end.

Fixpoint rstrip_ws (s : string) : string :=
  match s with
  | EmptyString => EmptyString
  | String c s' =>
      match rstrip_ws s' with
      | EmptyString => if is_space c then EmptyString else String c EmptyString
      | r => String c r
      end
  end.

(** [s.strip()] *)
Definition strip (s : string) : string := lstrip_ws (rstrip_ws s).

(** An entry of a parsed feed: [entry.get('title', '')],
    [entry.get('summary', '')], [entry.get('link', '')], and the date made
    of [published_parsed]: [None] when the attribute is missing or empty,
    [Some None] when [datetime(...)] raises on it. *)
Record FeedEntry := mkEntry {
  entry_title : string;
  entry_summary : string;
  entry_link : string;
  entry_published : option (option datetime)
}.

(** What [try_rss_feed] uses besides [make_request]: the kind of the
    scraper, its direct [get] (timeout 15, used for premium sites), and
    [feedparser.parse] ([None] when the result has no entries
    attribute or the call raises). *)
Record FeedWorld := mkFeedWorld {
  scraper_is_curl_cffi : bool;
  scraper_get : string -> outcome Response;
  feedparser_parse : bytes -> option (list FeedEntry)
}.

Definition premium_domains : list string :=
  [ "downjones.io"; "wsj.com"; "nytimes.com" ]%string.

(** The body of the loop over [feed.entries]: the candidate appended, if
    any. *)
Definition rss_entry_candidate (w : World) (publication : string) (entry : FeedEntry)
    : option ArticleCandidate :=
  let pub_date :=
    match entry_published entry with
    | Some parsed => parsed
    | None => Some (now w)
    end in
  match pub_date with
  | None => None
  | Some pub_date =>
      let title := strip (entry_title entry) in
      let summary := strip (entry_summary entry) in
      let url := strip (entry_link entry) in
      if String.eqb title "" || String.eqb url "" then None
      else
        let scored := calculate_title_relevance_score title url in
        if (1.0 <=? scored.1)%float
        then Some {| title := title; url := url; publication := publication;
                     published_date := pub_date; summary := summary;
                     author := "Unknown"; relevance_score := scored.1;
                     keywords_found := scored.2; full_content := "" |}
        else None
  end.

(** [try_rss_feed]; the [World] keeps it as one field, of which this is
    the implementation. *)
Definition try_rss_feed_impl (w : World) (fw : FeedWorld)
    (publication feed_url : string) : list ArticleCandidate :=
  if String.eqb feed_url "" then []
  else
    let is_premium := existsb (fun domain => contains domain feed_url) premium_domains in
    let response :=
      if is_premium && scraper_is_curl_cffi fw
      then scraper_get fw feed_url
      else make_request w feed_url 10 in
    match response with
    | Raise _ => []
    | Return response =>
        if negb (status_code response =? 200)%Z then []
        else
          match feedparser_parse fw (content response) with
          | None => []
          | Some entries => omap (rss_entry_candidate w publication) entries
          end
    end.

(** A world whose feeds are read by [try_rss_feed_impl]. *)
Definition with_feeds (w : World) (fw : FeedWorld) : World :=
  {| make_request := make_request w;
     ET_fromstring := ET_fromstring w;
     ET_fromstring_bytes := ET_fromstring_bytes w;
     decode_utf8 := decode_utf8 w;
     decode_latin1 := decode_latin1 w;
     gzip_decompress := gzip_decompress w;
     fromisoformat := fromisoformat w;
     strptime_ymd := strptime_ymd w;
     now := now w;
     try_rss_feed := try_rss_feed_impl w fw;
     article_parse := article_parse w;
     extract_author := extract_author w |}.

(** A feed with three entries: one names a brand, one names nothing, one
    has no link. *)
Definition demo_feed : FeedWorld :=
  {| scraper_is_curl_cffi := true;
     scraper_get := fun _ => Raise "blocked";
     feedparser_parse := fun _ =>
       Some [ {| entry_title := "  Cartier unveils a new collection ";
                 entry_summary := "High jewellery in Paris";
                 entry_link := "https://x.test/news/1";
                 entry_published := Some (Some 1700000000%Z) |};
              {| entry_title := "Weather today";
                 entry_summary := "";
                 entry_link := "https://x.test/news/2";
                 entry_published := None |};
              {| entry_title := "Diamond prices";
                 entry_summary := "";
                 entry_link := "   ";
                 entry_published := None |} ]%string |}.

Definition demo_feed_sources : list (string * SourceInfo) :=
  [ ("Demo",
     {| base_url := "https://x.test"; rss_feeds := ["https://x.test/feed"]%string;
        sitemap_url := Some "https://x.test/news.xml" |}) ]%string.

(** The candidate the feed stage makes of the first entry. *)
Definition demo_rss_candidate : ArticleCandidate :=
  {| title := "Cartier unveils a new collection"; url := "https://x.test/news/1";
     publication := "Demo"; published_date := 1700000000%Z;
     summary := "High jewellery in Paris"; author := "Unknown";
     relevance_score := 2.0%float; keywords_found := ["cartier"; "collection"]%string;
     full_content := "" |}.

(** ** The relevance checker ([backend/Relvance.py]) *)

Inductive verdict :=
| WouldBeCollected        (* score above the threshold and luxury validation *)
| RejectedNotLuxury       (* score above the threshold, fails luxury validation *)
| RejectedLowScore        (* passes luxury validation, score too low *)
| RejectedBoth.

(** The final verdict of [check_article_relevance]. *)
Definition final_verdict (content_score : float) (is_relevant : bool) : verdict :=
  let threshold := 3.0%float in
  if (threshold <? content_score)%float && is_relevant then WouldBeCollected
  else if (threshold <? content_score)%float then RejectedNotLuxury
  else if is_relevant then RejectedLowScore
  else RejectedBoth.

(** What [check_article_relevance] prints for an article it could check. *)
Record RelevanceReport := mkReport {
  report_title : string;
  report_title_score : float * list string;
  report_content_score : float * list string;
  report_is_relevant : bool;
  report_author : string;
  report_verdict : verdict
}.

Inductive check_outcome :=
| CheckDownloadFailed (status : Z)     (* Failed to download: HTTP status *)
| CheckInsufficientContent             (* Insufficient content extracted *)
| CheckDone (report : RelevanceReport)
| CheckRequestError (error_msg : string)   (* Error checking article: request *)
| CheckParseError.                         (* Error checking article: parse *)

Definition check_article_relevance (w : World) (url : string) : check_outcome :=
  match make_request w url 20 with
  | Raise error_msg => CheckRequestError error_msg
  | Return response =>
      if negb (status_code response =? 200)%Z
      then CheckDownloadFailed (status_code response)
      else
        match article_parse w url (text response) with
        | None => CheckParseError
        | Some article =>
            if String.eqb (art_text article) ""
               || (String.length (art_text article) <? 100)%nat
            then CheckInsufficientContent
            else
              let title :=
                if String.eqb (art_title article) "" then "No title"%string
                else art_title article in
              let is_relevant := is_luxury_relevant_content title (art_text article) in
              let content_score := calculate_relevance_score title (art_text article) in
              CheckDone
                {| report_title := title;
                   report_title_score := calculate_title_relevance_score title url;
                   report_content_score := content_score;
                   report_is_relevant := is_relevant;
                   report_author := extract_author w article (art_text article);
                   report_verdict := final_verdict content_score.1 is_relevant |}
        end
  end.

(** A site with one short page: 120 characters of text. *)
Definition short_page_world : World :=
  site_world []
    [ ("https://x.test/diamond-ring-note"%string,
       {| art_title := "Diamond ring sold";
          art_text := "A diamond ring by Cartier was sold at auction" +:+ run "." 75;
          art_authors := [];
          meta_description := "" |}) ].

(** The core terms of the validation that contain no configured keyword. *)
Definition unscored_core_terms : list string :=
  [ "jeweler"; "jeweller"; "earring"; "ring"; "gemstone"; "pearl";
    "haute joaillerie" ]%string.

(** ** Author extraction *)

(** A value made by [json.loads]; the members of an object have distinct
    keys.  [JNull] is Python's [None], [JString] a [str]. *)
Inductive json :=
| JNull
| JBool (b : bool)
| JInt (n : Z)
| JFloat (x : float)
| JString (s : string)
| JArray (items : list json)
| JObject (members : list (string * json)).

(** [bool(v)] *)
Definition truthy (v : json) : bool :=
  match v with
  | JNull => false
  | JBool b => b
  | JInt n => negb (n =? 0)%Z
  | JFloat x => negb (x =? 0)%float
  | JString s => negb (String.eqb s "")
  | JArray items => match items with [] => false | _ => true end
  | JObject members => match members with [] => false | _ => true end
  end.

(** The loop of [_get_author_from_jsonld] over a list of authors. *)
Fixpoint first_named (entries : list json) : json :=
  match entries with
  | [] => JNull
  | JObject members :: rest =>
      match assoc "name" members with
      | Some name => name
      | None => first_named rest
      end
  | _ :: rest => first_named rest
  end.

Definition _get_author_from_jsonld (author_field : json) : json :=
  match author_field with
  | JObject members =>
      match assoc "name" members with
      | Some name => name
      | None => JNull
      end
  | JArray entries => first_named entries
  | _ => JNull
  end.

(** The loop over the entries of a JSON-LD document that is a list;
    [Some] is a [return]. *)
Fixpoint author_of_entries (entries : list json) : option json :=
  match entries with
  | [] => None
  | JObject members :: rest =>
      match assoc "author" members with
      | Some author_field =>
          let author := _get_author_from_jsonld author_field in
          if truthy author then Some author else author_of_entries rest
      | None => author_of_entries rest
      end
  | _ :: rest => author_of_entries rest
  end.

Definition author_of_document (data : json) : option json :=
  match data with
  | JArray entries => author_of_entries entries
  | JObject members =>
      match assoc "author" members with
      | Some author_field =>
          let author := _get_author_from_jsonld author_field in
          if truthy author then Some author else None
      | None => None
      end
  | _ => None
  end.

(** The loop over the JSON-LD scripts of the page; [None] is a script on
    which [json.loads] raises. *)
Fixpoint author_of_scripts (scripts : list (option json)) : option json :=
  match scripts with
  | [] => None
  | None :: rest => author_of_scripts rest
  | Some data :: rest =>
      match author_of_document data with
      | Some author => Some author
      | None => author_of_scripts rest
      end
  end.

(** [extract_author], given the JSON-LD scripts of the page ([None] when
    the page cannot be searched for them) and the by-line search
    [re.search(...)] with its first group. *)
Definition extract_author_impl (scripts : option (list (option json)))
    (byline_search : string -> option string) (article : ParsedArticle) : json :=
  let from_jsonld :=
    match scripts with
    | Some scripts => author_of_scripts scripts
    | None => None
    end in
  match from_jsonld with
  | Some author => author
  | None =>
      match art_authors article with
      | first :: _ => JString first
      | [] =>
          let combined_text :=
            art_title article +:+ " " +:+ meta_description article +:+ " "
            +:+ art_text article in
          match byline_search combined_text with
          | Some name => JString name
          | None => JString "Unknown"
          end
      end
  end.

(* ================================================================== *)
(** * Part II: properties                                              *)
(* ================================================================== *)

(** ** Strings *)

Lemma append_cons (c : ascii) (s t : string) : String c s +:+ t = String c (s +:+ t).
Proof. reflexivity. Qed.

Lemma append_nil_l (t : string) : EmptyString +:+ t = t.
Proof. reflexivity. Qed.

Lemma prefix_spec (needle hay : string) :
  String.prefix needle hay = true <-> exists post, hay = needle +:+ post.
Proof.
  revert hay. induction needle as [|a needle IH]; intros hay; simpl.
  - split; [intros _; by exists hay | by destruct hay].
  - destruct hay as [|b hay]; simpl.
    + split; [done | by intros [post ?]].
    + setoid_rewrite append_cons.
      destruct (ascii_dec a b) as [->|Hne].
      * rewrite IH. split; intros [post Hp]; exists post; congruence.
      * split; [done | intros [post Hp]; congruence].
Qed.

Lemma contains_unfold (needle hay : string) :
  contains needle hay =
  String.prefix needle hay
  || match hay with EmptyString => false | String _ hay' => contains needle hay' end.
Proof. destruct hay; cbn [contains]; by destruct (String.prefix _ _). Qed.

Lemma contains_spec (needle hay : string) :
  contains needle hay = true <-> occurs_in needle hay.
Proof.
  unfold occurs_in. split.
  - induction hay as [|c hay IH]; rewrite contains_unfold.
    + rewrite orb_false_r. intros [post ->]%prefix_spec. by exists EmptyString, post.
    + intros [H|H]%orb_true_iff.
      * apply prefix_spec in H as [post ->]. by exists EmptyString, post.
      * destruct (IH H) as (pre & post & ->). by exists (String c pre), post.
  - intros (pre & post & ->). induction pre as [|c pre IH].
    + rewrite append_nil_l, contains_unfold.
      apply orb_true_iff. left. apply prefix_spec. by exists post.
    + rewrite append_cons, contains_unfold.
      apply orb_true_iff. right. exact IH.
Qed.

Lemma contains_false_spec (needle hay : string) :
  contains needle hay = false <-> ~ occurs_in needle hay.
Proof. rewrite <- contains_spec. by destruct (contains needle hay). Qed.

Lemma str_in_spec (x : string) (l : list string) : str_in x l = true <-> x ∈ l.
Proof.
  unfold str_in. rewrite existsb_exists, list_elem_of_In. split.
  - by intros (y & Hy & ->%String.eqb_eq).
  - intros Hx. exists x. by rewrite String.eqb_refl.
Qed.

Lemma existsb_elem_of {A} (f : A → bool) (l : list A) :
  existsb f l = true <-> exists x, x ∈ l /\ f x = true.
Proof. rewrite existsb_exists. by setoid_rewrite list_elem_of_In. Qed.

Lemma existsb_false_elem_of {A} (f : A → bool) (l : list A) :
  existsb f l = false <-> forall x, x ∈ l -> f x = false.
Proof.
  induction l as [|a l IH]; simpl.
  - split; [intros _ x Hx; by apply elem_of_nil in Hx | done].
  - rewrite orb_false_iff, IH. split.
    + intros [Ha Hl] x [->|Hx]%elem_of_cons; auto.
    + intros H. split; [apply H; left | intros x Hx; apply H; by right].
Qed.

Lemma forallb_elem_of {A} (f : A → bool) (l : list A) :
  forallb f l = true -> forall x, x ∈ l -> f x = true.
Proof.
  intros H x Hx. apply list_elem_of_In in Hx.
  exact (proj1 (forallb_forall f l) H x Hx).
Qed.

Lemma forallb_seq_lt (f : nat → bool) (m n : nat) :
  forallb f (seq 0 m) = true -> n < m -> f n = true.
Proof.
  intros H Hn. apply (proj1 (forallb_forall f (seq 0 m)) H).
  apply in_seq. lia.
Qed.

Lemma lower_app (s t : string) : lower (s +:+ t) = lower s +:+ lower t.
Proof.
  induction s as [|c s IH]; [done|].
  rewrite append_cons. simpl. by rewrite IH.
Qed.

Lemma lower_run_slash (n : nat) : lower (run "/" n) = run "/" n.
Proof. induction n as [|n IH]; simpl; [done | by rewrite IH]. Qed.

(** [rstrip] removes a run of the character and nothing else. *)
Lemma rstrip_run (ch : ascii) (s : string) :
  exists n, s = rstrip ch s +:+ run ch n.
Proof.
  induction s as [|c s [n IH]]; simpl.
  - by exists 0.
  - destruct (rstrip ch s) as [|c' r] eqn:E.
    + destruct (Ascii.eqb c ch) eqn:Ec.
      * apply Ascii.eqb_eq in Ec as ->. exists (S n).
        rewrite append_nil_l in *. simpl. by rewrite <- IH.
      * exists n. rewrite append_cons, append_nil_l in *. by rewrite <- IH.
    + exists n. rewrite append_cons. by rewrite <- IH.
Qed.

(** A needle without the character [ch] cannot reach into a trailing run
    of [ch]. *)
Lemma prefix_run_irrelevant (ch : ascii) (needle s : string) (n : nat) :
  has_char ch needle = false ->
  String.prefix needle (s +:+ run ch n) = String.prefix needle s.
Proof.
  revert s. induction needle as [|a needle IH]; intros s Hc.
  { by destruct s, n. }
  simpl in Hc. apply orb_false_iff in Hc as [Ha Hc].
  destruct s as [|b s].
  - rewrite append_nil_l. destruct n as [|n]; simpl; [done|].
    destruct (ascii_dec a ch) as [->|?]; [by rewrite Ascii.eqb_refl in Ha | done].
  - rewrite append_cons. simpl. destruct (ascii_dec a b); [by apply IH | done].
Qed.

Lemma contains_run_irrelevant (ch : ascii) (needle s : string) (n : nat) :
  has_char ch needle = false ->
  contains needle (s +:+ run ch n) = contains needle s.
Proof.
  intros Hc. induction s as [|b s IH].
  - rewrite append_nil_l. induction n as [|n IH]; [done|].
    rewrite (contains_unfold needle (run ch (S n))). cbn [run]. rewrite IH.
    change (String ch (run ch n)) with (run ch (S n)).
    rewrite <- (append_nil_l (run ch (S n))).
    rewrite (prefix_run_irrelevant ch needle EmptyString (S n) Hc).
    rewrite (contains_unfold needle EmptyString). by rewrite orb_false_r, orb_diag.
  - rewrite (contains_unfold needle (String b s)).
    rewrite append_cons, contains_unfold, IH.
    rewrite <- append_cons. by rewrite prefix_run_irrelevant.
Qed.

(** ** Domain validation *)

Lemma is_luxury_relevant_content_spec (title content : string) :
  is_luxury_relevant_content title content = true <->
  exists term, term ∈ core_luxury_terms /\ occurs_in term (lower (fmt_pair title content)).
Proof.
  unfold is_luxury_relevant_content. rewrite existsb_elem_of.
  by setoid_rewrite contains_spec.
Qed.

(** C6: domain validation is decided by the core vocabulary alone.
    [is_luxury_relevant_content] is false whenever no core term occurs in
    the lower-cased "title content" text, and true whenever at least one
    does; neither the other keywords of the text nor its Stage-2 score
    enter the result. *)
Theorem domain_validation_core_terms_only (title content : string) :
  ((forall term, term ∈ core_luxury_terms ->
      ~ occurs_in term (lower (fmt_pair title content))) ->
   is_luxury_relevant_content title content = false)
  /\
  ((exists term, term ∈ core_luxury_terms /\
      occurs_in term (lower (fmt_pair title content))) ->
   is_luxury_relevant_content title content = true).
Proof.
  split.
  - intros Hnone. apply not_true_is_false.
    intros (term & Hin & Hocc)%is_luxury_relevant_content_spec.
    exact (Hnone term Hin Hocc).
  - intros H. by apply is_luxury_relevant_content_spec.
Qed.

(** A text made of peripheral keywords only: a Stage-2 score above 3.0 from
    six keywords, and still rejected by domain validation. *)
Example high_score_without_core_term :
  let content := "gold and silver watches in platinum, a fashion launch"%string in
  (3.0 <? (calculate_relevance_score "" content).1)%float = true
  /\ length (calculate_relevance_score "" content).2 = 6
  /\ is_luxury_relevant_content "" content = false.
Proof. vm_compute. done. Qed.

Lemma domain_validation_core_terms_only_witness :
  is_luxury_relevant_content "Markets" "gold and silver watches" = false
  /\ is_luxury_relevant_content "Sale" "a Cartier necklace" = true.
Proof.
  split.
  - apply (domain_validation_core_terms_only "Markets" "gold and silver watches").
    intros term Hin. apply contains_false_spec, negb_true_iff. revert term Hin.
    apply (forallb_elem_of
             (fun term => negb (contains term (lower (fmt_pair "Markets" "gold and silver watches"))))).
    vm_compute. reflexivity.
  - apply (domain_validation_core_terms_only "Sale" "a Cartier necklace").
    exists "necklace"%string. split.
    + apply str_in_spec. reflexivity.
    + apply contains_spec. reflexivity.
Defined.

(** C10: core terms are looked for as raw substrings, so "ring" inside an
    unrelated word is enough.  Every text whose lower-cased form contains
    "ring" passes; "during" and "spring" do, although no configured
    keyword matches them (score 0.0, nothing found) and "ring" is the only
    core term in them. *)
Theorem ring_substring_passes_validation :
  (forall title content,
      occurs_in "ring" (lower (fmt_pair title content)) ->
      is_luxury_relevant_content title content = true)
  /\ is_luxury_relevant_content "" "during" = true
  /\ is_luxury_relevant_content "" "spring" = true
  /\ calculate_relevance_score "" "during" = (0.0%float, [])
  /\ calculate_relevance_score "" "spring" = (0.0%float, [])
  /\ List.filter (fun term => contains term (lower (fmt_pair "" "during")))
       core_luxury_terms = ["ring"%string]
  /\ List.filter (fun term => contains term (lower (fmt_pair "" "spring")))
       core_luxury_terms = ["ring"%string].
Proof.
  split; [|by vm_compute].
  intros title content Hocc. apply is_luxury_relevant_content_spec.
  exists "ring"%string. split; [|done]. apply str_in_spec. reflexivity.
Qed.

Lemma ring_substring_passes_validation_witness :
  is_luxury_relevant_content "Weather" "Rain is expected DURING the week" = true.
Proof.
  apply (proj1 ring_substring_passes_validation).
  apply contains_spec. reflexivity.
Defined.

(** ** URL filter *)

Lemma excluded_entries_rstrip :
  Forall (fun d => str_in (rstrip "/" d) national_jeweler_excluded = true
                   \/ rstrip "/" d = nj_root)
         national_jeweler_excluded.
Proof. repeat (constructor; [first [left; reflexivity | right; reflexivity]|]). constructor. Qed.

Lemma keywords_without_slash :
  Forall (fun keyword => has_char "/" (lower keyword) = false) luxury_keywords.
Proof. repeat (constructor; [reflexivity|]). constructor. Qed.

Lemma nj_root_has_no_keyword :
  Forall (fun keyword => contains (lower keyword) (lower nj_root) = false) luxury_keywords.
Proof. repeat (constructor; [reflexivity|]). constructor. Qed.

(** Every URL that a denylist entry becomes when trailing slashes are
    added or removed is rejected. *)
Lemma denylisted_variant_rejected (d u : string) :
  d ∈ national_jeweler_excluded ->
  rstrip "/" u = rstrip "/" d ->
  is_relevant_url u = false.
Proof.
  intros Hd Heq. unfold is_relevant_url.
  destruct (str_in (rstrip "/" u) national_jeweler_excluded
            || str_in u national_jeweler_excluded) eqn:E; [done|].
  apply orb_false_iff in E as [E _]. rewrite Heq in E.
  pose proof (proj1 (Forall_forall _ _) excluded_entries_rstrip d Hd) as [H|H];
    [congruence|].
  destruct (rstrip_run "/" u) as [n Hu]. rewrite Heq, H in Hu.
  apply existsb_false_elem_of. intros keyword Hk.
  rewrite Hu, lower_app, lower_run_slash, contains_run_irrelevant.
  - exact (proj1 (Forall_forall _ _) nj_root_has_no_keyword keyword Hk).
  - exact (proj1 (Forall_forall _ _) keywords_without_slash keyword Hk).
Qed.

(** Outside the denylist the answer is the keyword test. *)
Lemma not_denylisted_keyword_test (u : string) :
  rstrip "/" u ∉ national_jeweler_excluded ->
  u ∉ national_jeweler_excluded ->
  (is_relevant_url u = true <->
   exists keyword, keyword ∈ luxury_keywords /\ occurs_in (lower keyword) (lower u)).
Proof.
  intros H1 H2. unfold is_relevant_url.
  assert (str_in (rstrip "/" u) national_jeweler_excluded = false) as ->.
  { apply not_true_is_false. by rewrite str_in_spec. }
  assert (str_in u national_jeweler_excluded = false) as ->.
  { apply not_true_is_false. by rewrite str_in_spec. }
  cbn [orb]. rewrite existsb_elem_of. by setoid_rewrite contains_spec.
Qed.

(** C7: [is_relevant_url] checks the denylist first, on the URL as given
    and on the URL without its trailing slashes.  A denylisted URL, with
    any number of trailing slashes added or removed, is rejected whatever
    keywords it contains; any other URL is accepted exactly when its
    lower-cased form contains a (lower-cased) configured keyword. *)
Theorem is_relevant_url_denylist_then_keywords :
  (forall d u, d ∈ national_jeweler_excluded ->
               rstrip "/" u = rstrip "/" d ->
               is_relevant_url u = false)
  /\
  (forall u, rstrip "/" u ∉ national_jeweler_excluded ->
             u ∉ national_jeweler_excluded ->
             (is_relevant_url u = true <->
              exists keyword, keyword ∈ luxury_keywords
                              /\ occurs_in (lower keyword) (lower u))).
Proof.
  split; [exact denylisted_variant_rejected | exact not_denylisted_keyword_test].
Qed.

Lemma is_relevant_url_denylist_then_keywords_witness :
  is_relevant_url "https://nationaljeweler.com/style/watches//" = false
  /\ is_relevant_url "https://nationaljeweler.com//" = false
  /\ (is_relevant_url "https://www.ft.com/content/Gold-Price-rally" = true <->
      exists keyword, keyword ∈ luxury_keywords
                      /\ occurs_in (lower keyword)
                           (lower "https://www.ft.com/content/Gold-Price-rally")).
Proof.
  split; [|split].
  - apply (proj1 is_relevant_url_denylist_then_keywords
             "https://nationaljeweler.com/style/watches").
    + apply str_in_spec. reflexivity.
    + reflexivity.
  - apply (proj1 is_relevant_url_denylist_then_keywords
             "https://nationaljeweler.com/").
    + apply str_in_spec. reflexivity.
    + reflexivity.
  - apply (proj2 is_relevant_url_denylist_then_keywords).
    + intros H%str_in_spec. vm_compute in H. discriminate.
    + intros H%str_in_spec. vm_compute in H. discriminate.
Defined.

(** ** The order of binary64 floats *)

(** [SFcompare] is the comparison of a total preorder on the floats that
    are not NaN; the primitive [<?], [<=?] and [=?] read it. *)

Ltac sf_destruct :=
  repeat match goal with
         | f : spec_float |- _ => destruct f
         | b : bool |- _ => destruct b
         end;
  simpl in *; try congruence.

Ltac cmp_cases :=
  repeat match goal with
         | H : context [Pos.compare_cont Eq ?a ?b] |- _ =>
             change (Pos.compare_cont Eq a b) with (Pos.compare a b) in H
         | |- context [Pos.compare_cont Eq ?a ?b] =>
             change (Pos.compare_cont Eq a b) with (Pos.compare a b)
         end;
  repeat match goal with
         | H : context [Z.compare ?a ?b] |- _ =>
             destruct (Z.compare_spec a b); simpl in H; try discriminate H
         | H : context [Pos.compare ?a ?b] |- _ =>
             destruct (Pos.compare_spec a b); simpl in H; try discriminate H
         | |- context [Z.compare ?a ?b] => destruct (Z.compare_spec a b); simpl
         | |- context [Pos.compare ?a ?b] => destruct (Pos.compare_spec a b); simpl
         end;
  subst; try lia; try congruence.

Lemma SFcompare_None (a b : spec_float) :
  SFcompare a b = None <-> a = S754_nan \/ b = S754_nan.
Proof.
  split.
  - destruct a, b; simpl; try discriminate; auto.
  - intros [-> | ->]; [done | by destruct a].
Qed.

Lemma SFcompare_antisym (a b : spec_float) :
  SFcompare b a = option_map CompOpp (SFcompare a b).
Proof. sf_destruct; cmp_cases. Qed.

Lemma SFcompare_Eq_l (a b c : spec_float) :
  SFcompare a b = Some Eq -> SFcompare a c = SFcompare b c.
Proof. intros H. sf_destruct; cmp_cases. Qed.

Lemma SFcompare_Lt_trans (a b c : spec_float) :
  SFcompare a b = Some Lt -> SFcompare b c = Some Lt -> SFcompare a c = Some Lt.
Proof. intros H1 H2. sf_destruct; cmp_cases. Qed.

Lemma ltb_fcompare (x y : float) : (x <? y)%float = true <-> fcompare x y = Some Lt.
Proof.
  rewrite FloatAxioms.ltb_spec. unfold SFltb, fcompare.
  destruct (SFcompare _ _) as [[]|]; split; congruence.
Qed.

Lemma leb_fcompare (x y : float) :
  (x <=? y)%float = true <-> fcompare x y = Some Lt \/ fcompare x y = Some Eq.
Proof.
  rewrite FloatAxioms.leb_spec. unfold SFleb, fcompare.
  destruct (SFcompare _ _) as [[]|]; split; intros; try tauto; try congruence;
    destruct H; congruence.
Qed.

Lemma eqb_fcompare (x y : float) : (x =? y)%float = true <-> fcompare x y = Some Eq.
Proof.
  rewrite FloatAxioms.eqb_spec. unfold SFeqb, fcompare.
  destruct (SFcompare _ _) as [[]|]; split; congruence.
Qed.

Lemma is_nan_false (x : float) : is_nan x = false <-> Prim2SF x <> S754_nan.
Proof.
  unfold is_nan. rewrite negb_false_iff, eqb_fcompare. unfold fcompare. split.
  - intros H Hn. rewrite Hn in H. discriminate.
  - intros H. destruct (SFcompare (Prim2SF x) (Prim2SF x)) as [c|] eqn:E.
    + pose proof (SFcompare_antisym (Prim2SF x) (Prim2SF x)) as Ha.
      rewrite E in Ha. destruct c; simpl in Ha; congruence.
    + apply SFcompare_None in E. tauto.
Qed.

Lemma fcompare_total (x y : float) :
  is_nan x = false -> is_nan y = false -> exists c, fcompare x y = Some c.
Proof.
  rewrite !is_nan_false. intros Hx Hy. unfold fcompare.
  destruct (SFcompare (Prim2SF x) (Prim2SF y)) as [c|] eqn:E; [by exists c|].
  apply SFcompare_None in E. tauto.
Qed.

Lemma fcompare_antisym (x y : float) :
  fcompare y x = option_map CompOpp (fcompare x y).
Proof. apply SFcompare_antisym. Qed.

Lemma float_ltb_trans (x y z : float) :
  (x <? y)%float = true -> (y <? z)%float = true -> (x <? z)%float = true.
Proof. rewrite !ltb_fcompare. apply SFcompare_Lt_trans. Qed.

Lemma float_ltb_leb (x y : float) : (x <? y)%float = true -> (x <=? y)%float = true.
Proof. rewrite ltb_fcompare, leb_fcompare. auto. Qed.

Lemma float_leb_refl (x : float) : is_nan x = false -> (x <=? x)%float = true.
Proof.
  intros H. unfold is_nan in H. apply negb_false_iff in H.
  apply leb_fcompare. right. by apply eqb_fcompare.
Qed.

Lemma float_leb_trans (x y z : float) :
  (x <=? y)%float = true -> (y <=? z)%float = true -> (x <=? z)%float = true.
Proof.
  rewrite !leb_fcompare. unfold fcompare. intros [H1|H1] [H2|H2].
  - left. by eapply SFcompare_Lt_trans.
  - left. pose proof (SFcompare_antisym (Prim2SF y) (Prim2SF z)) as Ha.
    rewrite H2 in Ha. simpl in Ha.
    pose proof (SFcompare_antisym (Prim2SF x) (Prim2SF y)) as Hb.
    rewrite H1 in Hb. simpl in Hb.
    pose proof (SFcompare_Eq_l _ _ (Prim2SF x) Ha) as Hc. rewrite Hb in Hc.
    pose proof (SFcompare_antisym (Prim2SF z) (Prim2SF x)) as Hd.
    rewrite Hc in Hd. simpl in Hd. done.
  - left. by rewrite (SFcompare_Eq_l _ _ (Prim2SF z) H1).
  - right. by rewrite (SFcompare_Eq_l _ _ (Prim2SF z) H1).
Qed.

(** Of two floats that are not NaN, one is at most the other. *)
Lemma float_not_ltb_leb (x y : float) :
  is_nan x = false -> is_nan y = false ->
  (x <? y)%float = false -> (y <=? x)%float = true.
Proof.
  intros Hx Hy Hlt. destruct (fcompare_total x y Hx Hy) as [c Hc].
  apply leb_fcompare. rewrite (fcompare_antisym x y), Hc. simpl.
  destruct c; auto. apply ltb_fcompare in Hc. congruence.
Qed.

Lemma float_eqb_ltb_false (v x y : float) :
  (x =? v)%float = true -> (x <? y)%float = true -> (y =? v)%float = false.
Proof.
  rewrite eqb_fcompare, ltb_fcompare. intros Hv Hlt.
  apply not_true_is_false. rewrite eqb_fcompare. unfold fcompare in *. intros Hy.
  pose proof (SFcompare_antisym (Prim2SF x) (Prim2SF v)) as Ha.
  rewrite Hv in Ha. simpl in Ha.
  rewrite <- (SFcompare_Eq_l _ _ (Prim2SF y) Ha) in Hlt.
  pose proof (SFcompare_antisym (Prim2SF y) (Prim2SF v)) as Hb.
  rewrite Hy in Hb. simpl in Hb. congruence.
Qed.

(** ** The Stage-2 score *)

(** On the grid, float addition of a weight is exact. *)
Lemma half_add (n k : nat) :
  n < grid_max -> k ∈ unit_values -> (half n + half k)%float = half (n + k).
Proof.
  intros Hn Hk. apply Leibniz.eqb_spec.
  apply (forallb_elem_of
           (fun k => Leibniz.eqb (half n + half k)%float (half (n + k))) unit_values);
    [|done].
  apply (forallb_seq_lt
           (fun n => forallb
              (fun k => Leibniz.eqb (half n + half k)%float (half (n + k))) unit_values)
           grid_max); [|done].
  vm_compute. reflexivity.
Qed.

(** On the grid, the score grows with the sum and with the bonus class,
    and is never NaN. *)
Lemma grid_step_n (i n : nat) :
  i < 3 -> n < grid_max -> (grid_score i n <=? grid_score i (S n))%float = true.
Proof.
  intros Hi Hn.
  apply (forallb_seq_lt
           (fun n => (grid_score i n <=? grid_score i (S n))%float) grid_max); [|done].
  apply (forallb_seq_lt
           (fun i => forallb
              (fun n => (grid_score i n <=? grid_score i (S n))%float) (seq 0 grid_max))
           3); [|done].
  vm_compute. reflexivity.
Qed.

Lemma grid_step_i (i n : nat) :
  i < 2 -> n < S grid_max -> (grid_score i n <=? grid_score (S i) n)%float = true.
Proof.
  intros Hi Hn.
  apply (forallb_seq_lt
           (fun n => (grid_score i n <=? grid_score (S i) n)%float) (S grid_max)); [|done].
  apply (forallb_seq_lt
           (fun i => forallb
              (fun n => (grid_score i n <=? grid_score (S i) n)%float)
              (seq 0 (S grid_max)))
           2); [|done].
  vm_compute. reflexivity.
Qed.

Lemma grid_not_nan (i n : nat) :
  i < 3 -> n < S grid_max -> is_nan (grid_score i n) = false.
Proof.
  intros Hi Hn. apply negb_true_iff.
  apply (forallb_seq_lt (fun n => negb (is_nan (grid_score i n))) (S grid_max)); [|done].
  apply (forallb_seq_lt
           (fun i => forallb
              (fun n => negb (is_nan (grid_score i n))) (seq 0 (S grid_max)))
           3); [|done].
  vm_compute. reflexivity.
Qed.

(** The score is monotone over the whole grid. *)
Lemma grid_score_mono (i j n m : nat) :
  i <= j -> j < 3 -> n <= m -> m <= grid_max ->
  (grid_score i n <=? grid_score j m)%float = true.
Proof.
  intros Hij Hj Hnm Hm.
  apply float_leb_trans with (grid_score i m).
  - induction Hnm as [|m Hnm IH].
    + apply float_leb_refl, grid_not_nan; lia.
    + apply float_leb_trans with (grid_score i m); [apply IH; lia|].
      apply grid_step_n; lia.
  - induction Hij as [|j Hij IH].
    + apply float_leb_refl, grid_not_nan; lia.
    + apply float_leb_trans with (grid_score j m); [apply IH; lia|].
      apply grid_step_i; lia.
Qed.

Lemma keyword_weight_units (keyword : string) :
  keyword_weight keyword = half (weight_units keyword)
  /\ weight_units keyword ∈ unit_values.
Proof.
  unfold keyword_weight, weight_units, unit_values.
  repeat match goal with
         | |- context [if ?b then _ else _] => destruct b
         end;
    (split; [reflexivity | set_solver]).
Qed.

Lemma weight_units_le (keyword : string) : weight_units keyword <= 10.
Proof.
  destruct (keyword_weight_units keyword) as [_ H]. unfold unit_values in H.
  set_unfold in H. lia.
Qed.

Lemma units_sum_le (keywords : list string) :
  units_sum keywords <= 10 * length keywords.
Proof.
  induction keywords as [|k l IH]; simpl; [lia|].
  pose proof (weight_units_le k). lia.
Qed.

Lemma matched_length (combined_text : string) (keywords : list string) :
  length (matched combined_text keywords) <= length keywords.
Proof. unfold matched. induction keywords; simpl; [lia|]. case_match; simpl; lia. Qed.

(** The loop adds up exactly: from [n] halves it reaches [n] plus the
    weights of the matched keywords, and appends them in order. *)
Lemma score_loop_from (combined_text : string) (keywords found : list string) (n : nat) :
  n + 10 * length keywords <= grid_max ->
  fold_left (score_step combined_text) keywords (half n, found) =
  (half (n + units_sum (matched combined_text keywords)),
   found ++ matched combined_text keywords).
Proof.
  revert n found. induction keywords as [|k l IH]; intros n found Hn; simpl.
  - by rewrite Nat.add_0_r, app_nil_r.
  - unfold score_step at 2. simpl in Hn.
    destruct (contains (lower k) combined_text); simpl.
    + destruct (keyword_weight_units k) as [-> Hk].
      pose proof (weight_units_le k).
      rewrite half_add by (done || unfold grid_max in *; lia).
      rewrite IH by lia. rewrite <- app_assoc. simpl. f_equal. f_equal. lia.
    + apply IH. lia.
Qed.

Lemma apply_bonus_grid (n_found n : nat) :
  apply_bonus n_found (half n) = grid_score (bonus_class n_found) n.
Proof.
  unfold apply_bonus, bonus_class.
  destruct (2 <? n_found)%nat eqn:E2, (4 <? n_found)%nat eqn:E4; try reflexivity.
  apply Nat.ltb_lt in E4. apply Nat.ltb_ge in E2. lia.
Qed.

(** The score returned by Stage 2, read off the grid. *)
Lemma calculate_relevance_score_grid (title content : string) :
  let found := matched (lower (fmt_pair title content)) luxury_keywords in
  calculate_relevance_score title content =
  (grid_score (bonus_class (length found)) (units_sum found), found).
Proof.
  unfold calculate_relevance_score, score_loop.
  change 0%float with (half 0).
  rewrite score_loop_from by (vm_compute; lia).
  cbn [fst snd]. by rewrite apply_bonus_grid.
Qed.

Lemma bonus_class_mono (a b : nat) : a <= b -> bonus_class a <= bonus_class b.
Proof.
  unfold bonus_class. intros H.
  destruct (4 <? a)%nat eqn:A4, (2 <? a)%nat eqn:A2,
           (4 <? b)%nat eqn:B4, (2 <? b)%nat eqn:B2;
    rewrite ?Nat.ltb_lt, ?Nat.ltb_ge in *; lia.
Qed.

Lemma bonus_class_lt (a : nat) : bonus_class a < 3.
Proof. unfold bonus_class. repeat case_match; lia. Qed.

(** More matches: a longer list of found keywords and a larger sum. *)
Lemma matched_mono (text text' : string) (keywords : list string) :
  (forall keyword, keyword ∈ keywords ->
     contains (lower keyword) text = true -> contains (lower keyword) text' = true) ->
  length (matched text keywords) <= length (matched text' keywords)
  /\ units_sum (matched text keywords) <= units_sum (matched text' keywords).
Proof.
  unfold matched. induction keywords as [|k l IH]; intros H; simpl; [lia|].
  destruct IH as [IH1 IH2]. { intros k' Hk'. apply H. by right. }
  pose proof (H k (list_elem_of_here _ _)) as Hk.
  destruct (contains (lower k) text).
  - rewrite Hk by done. simpl. lia.
  - destruct (contains (lower k) text'); simpl; lia.
Qed.

(** On the grid: when every keyword matching [text] matches [text'], the
    grid point of [text'] is at least the grid point of [text]. *)
Lemma matched_grid_score_mono (text text' : string) :
  (forall keyword, keyword ∈ luxury_keywords ->
     contains (lower keyword) text = true -> contains (lower keyword) text' = true) ->
  (grid_score (bonus_class (length (matched text luxury_keywords)))
              (units_sum (matched text luxury_keywords))
   <=? grid_score (bonus_class (length (matched text' luxury_keywords)))
                  (units_sum (matched text' luxury_keywords)))%float = true.
Proof.
  intros H. destruct (matched_mono _ _ _ H) as [Hlen Hsum].
  apply grid_score_mono.
  - by apply bonus_class_mono.
  - apply bonus_class_lt.
  - done.
  - etrans; [apply units_sum_le|].
    etrans; [apply Nat.mul_le_mono_l, matched_length|]. vm_compute. lia.
Qed.

(** C1: the Stage-2 score never decreases when more keywords match.  If
    every configured keyword that matches "title content" also matches
    "title content'" (so content' may match further keywords, one or
    several), the score returned for content' is at least the score
    returned for content, in the float order. *)
Theorem stage2_score_monotone (title content content' : string) :
  (forall keyword, keyword ∈ luxury_keywords ->
     contains (lower keyword) (lower (fmt_pair title content)) = true ->
     contains (lower keyword) (lower (fmt_pair title content')) = true) ->
  ((calculate_relevance_score title content).1
     <=? (calculate_relevance_score title content').1)%float = true.
Proof.
  intros H. rewrite !calculate_relevance_score_grid. cbn [fst].
  by apply matched_grid_score_mono.
Qed.

Lemma stage2_score_monotone_witness :
  ((calculate_relevance_score "Auction news" "a gold bracelet").1
     <=? (calculate_relevance_score "Auction news"
            "a gold bracelet with a Cartier diamond").1)%float = true.
Proof.
  apply (stage2_score_monotone "Auction news" "a gold bracelet"
           "a gold bracelet with a Cartier diamond").
  intros keyword Hin Hm.
  pose proof (forallb_elem_of
    (fun keyword =>
       implb (contains (lower keyword) (lower (fmt_pair "Auction news" "a gold bracelet")))
             (contains (lower keyword)
                (lower (fmt_pair "Auction news" "a gold bracelet with a Cartier diamond"))))
    luxury_keywords) as H.
  specialize (H ltac:(vm_compute; reflexivity) keyword Hin).
  cbv beta in H. rewrite Hm in H. exact H.
Defined.

Lemma append_assoc (s t u : string) : (s +:+ t) +:+ u = s +:+ (t +:+ u).
Proof.
  induction s as [|c s IH]; [done|].
  rewrite !append_cons. by rewrite IH.
Qed.

(** Appending text to the content keeps every match, so it never lowers
    the score. *)
Corollary score_monotone_extend (title content extra : string) :
  ((calculate_relevance_score title content).1
     <=? (calculate_relevance_score title (content +:+ extra)).1)%float = true.
Proof.
  rewrite !calculate_relevance_score_grid. cbn [fst].
  apply matched_grid_score_mono. intros keyword _.
  rewrite !contains_spec. intros (pre & post & Heq).
  exists pre, (post +:+ lower extra).
  unfold fmt_pair in *.
  replace (title +:+ " " +:+ content +:+ extra)
    with ((title +:+ " " +:+ content) +:+ extra) by (by rewrite !append_assoc).
  rewrite lower_app, Heq. by rewrite !append_assoc.
Qed.

Lemma mixed_case_keywords_facts :
  Forall (fun keyword =>
            str_in keyword luxury_keywords = true
            /\ str_in keyword primary_jewelry_terms = true
            /\ str_in (lower keyword) primary_jewelry_terms = false
            /\ keyword_weight keyword = 1.0%float)
         mixed_case_keywords.
Proof. repeat (constructor; [by vm_compute|]). constructor. Qed.

(** C9: the five keywords configured with capital letters miss their
    category.  Each of them is a configured keyword and is written in the
    5.0 list of [calculate_relevance_score], but the loop looks up the
    lower-cased keyword, which that list does not contain; no other list
    contains it either, so its weight is the default 1.0, and an iteration
    in which it matches the text adds exactly 1.0 to the running score. *)
Theorem mixed_case_keywords_default_weight (keyword : string) :
  keyword ∈ mixed_case_keywords ->
  keyword ∈ luxury_keywords
  /\ keyword ∈ primary_jewelry_terms
  /\ ((lower keyword) ∉ primary_jewelry_terms)
  /\ keyword_weight keyword = 1.0%float
  /\ (forall combined_text score found,
        contains (lower keyword) combined_text = true ->
        score_step combined_text (score, found) keyword
        = ((score + 1.0)%float, found ++ [keyword])).
Proof.
  intros Hk.
  destruct (proj1 (Forall_forall _ _) mixed_case_keywords_facts keyword Hk)
    as (H1 & H2 & H3 & H4).
  repeat split.
  - by apply str_in_spec.
  - by apply str_in_spec.
  - rewrite <- str_in_spec. by rewrite H3.
  - exact H4.
  - intros combined_text score found Hm. unfold score_step.
    rewrite Hm, H4. reflexivity.
Qed.

Lemma mixed_case_keywords_default_weight_witness :
  keyword_weight "Lab grown diamonds" = 1.0%float
  /\ score_step "new lab grown diamonds on sale" (5.0%float, ["diamond"%string])
       "Lab grown diamonds"
     = (6.0%float, ["diamond"; "Lab grown diamonds"]%string).
Proof.
  destruct (mixed_case_keywords_default_weight "Lab grown diamonds")
    as (_ & _ & _ & Hw & Hstep).
  - apply str_in_spec. reflexivity.
  - split; [exact Hw|].
    rewrite (Hstep "new lab grown diamonds on sale" 5.0%float ["diamond"%string]).
    + reflexivity.
    + reflexivity.
Defined.

(** The same five keywords inside the whole function: a text that
    matches all of them and "diamond", "gold", "luxury" and "trends". *)
Example mixed_case_keywords_scored :
  calculate_relevance_score "Luxury sector and luxury marketing trends"
    "Lab grown diamonds, diamond price and gold price"
  = ((((2.0 + 5.0 + 5.0 + 0.5 + 1.0 + 1.0 + 1.0 + 1.0 + 1.0) * 1.2) * 1.4)%float,
     ["luxury"; "diamond"; "gold"; "trends"; "Luxury sector";
      "Luxury marketing trends"; "Lab grown diamonds"; "Diamond price";
      "Gold price"]%string).
Proof. vm_compute. reflexivity. Qed.

(** ** Removal of duplicates *)

Lemma first_with_url_app (u : string) (l l' : list ArticleCandidate) :
  first_with_url u (l ++ l')
  = match first_with_url u l with
    | Some candidate => Some candidate
    | None => first_with_url u l'
    end.
Proof.
  unfold first_with_url. induction l as [|c l IH]; [done|].
  simpl. by destruct (String.eqb (url c) u).
Qed.

Lemma first_with_url_None (u : string) (l : list ArticleCandidate) :
  u ∉ map url l -> first_with_url u l = None.
Proof.
  unfold first_with_url. induction l as [|c l IH]; [done|].
  simpl. intros H. apply not_elem_of_cons in H as [H1 H2].
  destruct (String.eqb (url c) u) eqn:E.
  - apply String.eqb_eq in E. congruence.
  - by apply IH.
Qed.

(** After the loop, [seen_urls] holds the URLs of all the candidates. *)
Lemma dedup_seen (l : list ArticleCandidate) (u : string) :
  u ∈ (fold_left dedup_step l ([], ∅)).2 <-> u ∈ map url l.
Proof.
  revert u. induction l as [|c l IH] using rev_ind; intros u.
  - simpl. set_solver.
  - rewrite fold_left_app, map_app. simpl. unfold dedup_step at 1.
    destruct (decide _) as [Hin|Hin].
    + rewrite IH, elem_of_app. apply IH in Hin. set_solver.
    + simpl. rewrite elem_of_union, IH, elem_of_app. set_solver.
Qed.

(** The loop, one candidate at a time from the end of the list. *)
Lemma remove_duplicates_snoc (l : list ArticleCandidate) (c : ArticleCandidate) :
  remove_duplicates (l ++ [c])
  = if decide (url c ∈ map url l) then remove_duplicates l
    else remove_duplicates l ++ [c].
Proof.
  unfold remove_duplicates. rewrite fold_left_app. simpl.
  unfold dedup_step at 1.
  destruct (decide (url c ∈ _)) as [Hin|Hin];
    destruct (decide (url c ∈ map url l)) as [Hin'|Hin']; try done.
  - by apply dedup_seen in Hin.
  - by apply dedup_seen in Hin'.
Qed.

Lemma remove_duplicates_urls (l : list ArticleCandidate) (u : string) :
  u ∈ map url (remove_duplicates l) <-> u ∈ map url l.
Proof.
  induction l as [|c l IH] using rev_ind; [done|].
  rewrite remove_duplicates_snoc.
  destruct (decide _) as [Hin|Hin]; rewrite ?map_app, ?elem_of_app, IH; set_solver.
Qed.

Lemma remove_duplicates_NoDup (l : list ArticleCandidate) :
  NoDup (map url (remove_duplicates l)).
Proof.
  induction l as [|c l IH] using rev_ind; [constructor|].
  rewrite remove_duplicates_snoc.
  destruct (decide _) as [Hin|Hin]; [done|].
  rewrite map_app. apply NoDup_app. split_and!; [done| |apply NoDup_singleton].
  intros u Hu. rewrite remove_duplicates_urls in Hu. set_solver.
Qed.

Lemma remove_duplicates_sublist (l : list ArticleCandidate) :
  sublist (remove_duplicates l) l.
Proof.
  induction l as [|c l IH] using rev_ind; [done|].
  rewrite remove_duplicates_snoc.
  destruct (decide _) as [Hin|Hin].
  - by apply sublist_inserts_r.
  - by apply sublist_app.
Qed.

Lemma remove_duplicates_first (l : list ArticleCandidate) (c : ArticleCandidate) :
  c ∈ remove_duplicates l -> first_with_url (url c) l = Some c.
Proof.
  induction l as [|c' l IH] using rev_ind; [by intros ?%elem_of_nil|].
  rewrite remove_duplicates_snoc, first_with_url_app.
  destruct (decide _) as [Hin|Hin].
  - intros Hc. by rewrite IH.
  - intros [Hc| ->%list_elem_of_singleton]%elem_of_app.
    + by rewrite IH.
    + rewrite first_with_url_None by done.
      unfold first_with_url. simpl. by rewrite String.eqb_refl.
Qed.

(** C5: removal of duplicates by URL.  [collect_from_source] returns the
    merged list (sitemap candidates, then feed candidates) with its
    duplicates removed, and for every merged list [all_candidates] the
    result [unique_candidates] of the removal has pairwise distinct URLs,
    carries exactly the URLs of [all_candidates], keeps for each URL the
    first candidate of [all_candidates] with that URL, and lists the
    survivors in their order in [all_candidates]. *)
Theorem dedup_keeps_first_seen_per_url (all_candidates : list ArticleCandidate) :
  let unique_candidates := remove_duplicates all_candidates in
  NoDup (map url unique_candidates)
  /\ (forall u, u ∈ map url unique_candidates <-> u ∈ map url all_candidates)
  /\ (forall candidate, candidate ∈ unique_candidates ->
        first_with_url (url candidate) all_candidates = Some candidate)
  /\ sublist unique_candidates all_candidates
  /\ (forall w publication source_info,
        merged_candidates w publication source_info = all_candidates ->
        collect_from_source w publication source_info = unique_candidates).
Proof.
  cbv zeta. split_and!.
  - apply remove_duplicates_NoDup.
  - apply remove_duplicates_urls.
  - apply remove_duplicates_first.
  - apply remove_duplicates_sublist.
  - intros w publication source_info <-. reflexivity.
Qed.

Lemma dedup_keeps_first_seen_per_url_witness :
  remove_duplicates
    [stub_candidate "A" "https://x.test/a"; stub_candidate "B" "https://x.test/b";
     stub_candidate "A again" "https://x.test/a"; stub_candidate "C" "https://x.test/c";
     stub_candidate "B again" "https://x.test/b"]
  = [stub_candidate "A" "https://x.test/a"; stub_candidate "B" "https://x.test/b";
     stub_candidate "C" "https://x.test/c"]
  /\ NoDup (map url (remove_duplicates
       [stub_candidate "A" "https://x.test/a"; stub_candidate "B" "https://x.test/b";
        stub_candidate "A again" "https://x.test/a"; stub_candidate "C" "https://x.test/c";
        stub_candidate "B again" "https://x.test/b"])).
Proof.
  split.
  - vm_compute. reflexivity.
  - exact (proj1 (dedup_keeps_first_seen_per_url
       [stub_candidate "A" "https://x.test/a"; stub_candidate "B" "https://x.test/b";
        stub_candidate "A again" "https://x.test/a"; stub_candidate "C" "https://x.test/c";
        stub_candidate "B again" "https://x.test/b"])).
Defined.

(** ** Sorting by score and the top 3 *)

Lemma insert_by_score_perm (x : ArticleCandidate) (l : list ArticleCandidate) :
  insert_by_score x l ≡ₚ x :: l.
Proof.
  induction l as [|y l IH]; simpl; [done|].
  destruct (_ <? _)%float; [|done].
  rewrite IH. apply Permutation_swap.
Qed.

Lemma sort_by_score_desc_perm (l : list ArticleCandidate) :
  sort_by_score_desc l ≡ₚ l.
Proof.
  induction l as [|x l IH]; simpl; [done|].
  by rewrite insert_by_score_perm, IH.
Qed.

Lemma insert_by_score_sorted (x : ArticleCandidate) (l : list ArticleCandidate) :
  scored x -> Forall scored l ->
  StronglySorted score_ge l -> StronglySorted score_ge (insert_by_score x l).
Proof.
  intros Hx. induction l as [|y l IH]; intros Hl Hs; simpl.
  - repeat constructor.
  - apply Forall_cons in Hl as [Hy Hl].
    apply StronglySorted_inv in Hs as [Hs Hyl].
    destruct (relevance_score x <? relevance_score y)%float eqn:E.
    + constructor; [by apply IH|].
      rewrite insert_by_score_perm. constructor; [|done].
      by apply float_ltb_leb.
    + assert (score_ge x y) as Hxy by by apply float_not_ltb_leb.
      constructor; [by constructor|]. constructor; [done|].
      eapply Forall_impl; [exact Hyl|]. intros r Hr.
      unfold score_ge in *. by eapply float_leb_trans.
Qed.

Lemma sort_by_score_desc_sorted (l : list ArticleCandidate) :
  Forall scored l -> StronglySorted score_ge (sort_by_score_desc l).
Proof.
  induction l as [|x l IH]; intros Hl; simpl; [constructor|].
  apply Forall_cons in Hl as [Hx Hl].
  apply insert_by_score_sorted; [done| |by apply IH].
  by rewrite sort_by_score_desc_perm.
Qed.

(** Stability: an insertion never moves a candidate past one of equal
    score. *)
Lemma with_score_insert (v : float) (x : ArticleCandidate) (l : list ArticleCandidate) :
  with_score v (insert_by_score x l) = with_score v (x :: l).
Proof.
  unfold with_score. induction l as [|y l IH]; simpl; [done|].
  destruct (relevance_score x <? relevance_score y)%float eqn:E; [|done].
  simpl. rewrite IH. simpl.
  destruct (relevance_score x =? v)%float eqn:Ex; [|done].
  by rewrite (float_eqb_ltb_false v _ _ Ex E).
Qed.

Lemma with_score_sort (v : float) (l : list ArticleCandidate) :
  with_score v (sort_by_score_desc l) = with_score v l.
Proof.
  induction l as [|x l IH]; simpl; [done|].
  rewrite with_score_insert. unfold with_score in *. simpl. by rewrite IH.
Qed.

Lemma with_score_take (v : float) (n : nat) (l : list ArticleCandidate) :
  with_score v (take n l) `prefix_of` with_score v l.
Proof.
  exists (with_score v (drop n l)). unfold with_score.
  by rewrite <- List.filter_app, take_drop.
Qed.

(** Every score computed by [calculate_relevance_score] is a number. *)
Lemma calculate_relevance_score_not_nan (title content : string) :
  is_nan (calculate_relevance_score title content).1 = false.
Proof.
  rewrite calculate_relevance_score_grid. cbn [fst].
  apply grid_not_nan; [apply bonus_class_lt|].
  apply Nat.lt_succ_r.
  etrans; [apply units_sum_le|].
  etrans; [apply Nat.mul_le_mono_l, matched_length|]. vm_compute. lia.
Qed.

Lemma extract_full_content_score (w : World) (candidate enhanced : ArticleCandidate) :
  extract_full_content w candidate = Some enhanced ->
  exists new_title,
    relevance_score enhanced
    = (calculate_relevance_score new_title (full_content enhanced)).1.
Proof.
  unfold extract_full_content.
  destruct (make_request w (url candidate) 20) as [response|]; [|done].
  destruct (negb _); [done|].
  destruct (article_parse w (url candidate) (text response)) as [article|]; [|done].
  destruct (_ || _); [done|].
  intros H. apply (inj Some) in H. rewrite <- H.
  cbn [relevance_score full_content]. eexists. reflexivity.
Qed.

Lemma download_loop_scored (w : World) (candidates : list ArticleCandidate) :
  forall idx publication_articles,
    Forall scored publication_articles ->
    Forall scored (download_loop w idx candidates publication_articles).
Proof.
  induction candidates as [|c l IH]; intros idx acc Hacc; cbn [download_loop]; [done|].
  assert (Forall scored
            match extract_full_content w c with
            | Some enhanced => acc ++ [enhanced]
            | None => acc
            end) as Hacc'.
  { destruct (extract_full_content w c) as [e|] eqn:E; [|done].
    apply Forall_app. split; [done|]. constructor; [|constructor].
    destruct (extract_full_content_score _ _ _ E) as [t Ht].
    unfold scored. rewrite Ht. apply calculate_relevance_score_not_nan. }
  destruct (99 <=? idx)%nat; [done|]. by apply IH.
Qed.

Lemma download_and_score_scored (w : World) (candidates : list ArticleCandidate) :
  Forall scored (download_and_score w candidates).
Proof. apply download_loop_scored. constructor. Qed.

(** X1: the top 3.  For at least three candidates with numeric scores
    (the scores of the content stage are), [final_3] is the first three
    candidates of the sorted list; the sorted list is a rearrangement of
    the input, in descending score order, in which the candidates of any
    one score keep their input order (a stable sort).  Hence [final_3] has
    three candidates in descending order, none of the candidates left out
    scores above a selected one, and the selected candidates of any one
    score are the first ones of that score in the input. *)
Theorem top_3_stable_descending (publication_articles : list ArticleCandidate) :
  3 <= length publication_articles ->
  Forall scored publication_articles ->
  let sorted := sort_by_score_desc publication_articles in
  let final_3 := select_top_3 publication_articles in
  final_3 = take 3 sorted
  /\ sorted ≡ₚ publication_articles
  /\ StronglySorted score_ge sorted
  /\ (forall v, with_score v sorted = with_score v publication_articles)
  /\ length final_3 = 3
  /\ StronglySorted score_ge final_3
  /\ publication_articles ≡ₚ final_3 ++ drop 3 sorted
  /\ (forall a b, a ∈ final_3 -> b ∈ drop 3 sorted -> score_ge a b)
  /\ (forall v, with_score v final_3 `prefix_of` with_score v publication_articles).
Proof.
  intros Hlen Hsc sorted final_3.
  assert (StronglySorted score_ge sorted) as Hs
    by by apply sort_by_score_desc_sorted.
  assert (sorted ≡ₚ publication_articles) as Hp
    by apply sort_by_score_desc_perm.
  assert (sorted = final_3 ++ drop 3 sorted) as Hsplit
    by (subst final_3; unfold select_top_3; by rewrite take_drop).
  split_and!.
  - reflexivity.
  - exact Hp.
  - exact Hs.
  - intros v. apply with_score_sort.
  - apply Permutation_length in Hp.
    subst final_3 sorted. unfold select_top_3. rewrite length_take. lia.
  - rewrite Hsplit in Hs. by apply StronglySorted_app_1_l in Hs.
  - by rewrite <- Hsplit.
  - intros a b Ha Hb. rewrite Hsplit in Hs.
    by eapply StronglySorted_app_1_elem_of.
  - intros v. rewrite <- (with_score_sort v publication_articles).
    apply with_score_take.
Qed.

Lemma top_3_stable_descending_witness :
  select_top_3
    [rated_candidate "a" 1.0; rated_candidate "b" 5.0; rated_candidate "c" 1.0;
     rated_candidate "d" 5.0; rated_candidate "e" 0.5]
  = [rated_candidate "b" 5.0; rated_candidate "d" 5.0; rated_candidate "a" 1.0]
  /\ length (select_top_3
       [rated_candidate "a" 1.0; rated_candidate "b" 5.0; rated_candidate "c" 1.0;
        rated_candidate "d" 5.0; rated_candidate "e" 0.5]) = 3.
Proof.
  split.
  - vm_compute. reflexivity.
  - apply (top_3_stable_descending
       [rated_candidate "a" 1.0; rated_candidate "b" 5.0; rated_candidate "c" 1.0;
        rated_candidate "d" 5.0; rated_candidate "e" 0.5]).
    + simpl. lia.
    + repeat (constructor; [reflexivity|]). constructor.
Defined.

(** The list sorted in STAGE 3 is the output of the content stage, whose
    scores are numbers. *)
Corollary publication_top_3_sorted (w : World) (publication : string)
    (source_info : SourceInfo) :
  StronglySorted score_ge (publication_top_3 w publication source_info).
Proof.
  unfold publication_top_3.
  destruct (collect_from_source w publication source_info) as [|c l]; [constructor|].
  unfold select_top_3.
  pose proof (sort_by_score_desc_sorted _ (download_and_score_scored w (c :: l))) as Hs.
  rewrite <- (take_drop 3 (sort_by_score_desc _)) in Hs.
  by apply StronglySorted_app_1_l in Hs.
Qed.

(** ** Range and keywords of the Stage-2 score *)

Lemma units_sum_matched_le (combined_text : string) (keywords : list string) :
  units_sum (matched combined_text keywords) <= units_sum keywords.
Proof.
  unfold matched. induction keywords as [|k l IH]; simpl; [lia|].
  destruct (contains _ _); simpl; lia.
Qed.

Lemma weight_units_pos (keyword : string) : 1 <= weight_units keyword.
Proof. unfold weight_units. repeat case_match; lia. Qed.

Lemma matched_sublist (combined_text : string) (keywords : list string) :
  sublist (matched combined_text keywords) keywords.
Proof.
  unfold matched. induction keywords as [|k l IH]; simpl; [constructor|].
  destruct (contains _ _); by constructor.
Qed.

Lemma matched_elem_of (combined_text : string) (keywords : list string) (keyword : string) :
  keyword ∈ matched combined_text keywords <->
  keyword ∈ keywords /\ occurs_in (lower keyword) combined_text.
Proof.
  unfold matched. rewrite list_elem_of_In, List.filter_In, <- list_elem_of_In.
  by rewrite contains_spec.
Qed.

(** X2: the range of the Stage-2 score.  Whatever the title and the
    content, the score is a number, it is at least 0.0, and it is at most
    176.5 * 1.2 * 1.4, the sum of the weights of all configured keywords
    with both bonuses. *)
Theorem stage2_score_range (title content : string) :
  is_nan (calculate_relevance_score title content).1 = false
  /\ (0 <=? (calculate_relevance_score title content).1)%float = true
  /\ ((calculate_relevance_score title content).1 <=? 176.5 * 1.2 * 1.4)%float = true.
Proof.
  rewrite calculate_relevance_score_grid. cbn [fst].
  set (found := matched _ luxury_keywords).
  assert (units_sum found <= 353) as Hsum.
  { etrans; [apply units_sum_matched_le|]. vm_compute. lia. }
  pose proof (bonus_class_lt (length found)) as Hclass.
  split_and!.
  - apply grid_not_nan; [done|]. unfold grid_max. lia.
  - change 0%float with (grid_score 0 0).
    apply grid_score_mono; [lia|done|lia|unfold grid_max; lia].
  - replace (176.5 * 1.2 * 1.4)%float with (grid_score 2 353)
      by (vm_compute; reflexivity).
    apply grid_score_mono; [lia|lia|done|unfold grid_max; lia].
Qed.

(** The upper bound is reached by a text that names every keyword. *)
Example stage2_score_maximum :
  (calculate_relevance_score "all"
     (foldr (fun keyword acc => keyword +:+ ", " +:+ acc) "" luxury_keywords)).1
  = (176.5 * 1.2 * 1.4)%float.
Proof. vm_compute. reflexivity. Qed.

(** X3: the keywords reported by Stage 2.  [keywords_found] is the list
    of the configured keywords whose lower-cased form occurs in the
    lower-cased "title content" text: each of them once, in the order of
    the configuration, and nothing else. *)
Theorem stage2_keywords_found (title content : string) :
  let found := (calculate_relevance_score title content).2 in
  sublist found luxury_keywords
  /\ NoDup found
  /\ (forall keyword,
        keyword ∈ found <->
        keyword ∈ luxury_keywords
        /\ occurs_in (lower keyword) (lower (fmt_pair title content))).
Proof.
  rewrite calculate_relevance_score_grid. cbn [snd]. cbv zeta.
  split_and!.
  - apply matched_sublist.
  - eapply sublist_NoDup; [|apply matched_sublist].
    apply (bool_decide_unpack _). by vm_compute.
  - intros keyword. apply matched_elem_of.
Qed.

(** X4: a score of zero means no keyword.  When no keyword is found the
    score is exactly 0.0; when at least one is found the score is at
    least 0.5, the smallest weight. *)
Theorem stage2_score_zero_iff_no_keyword (title content : string) :
  match (calculate_relevance_score title content).2 with
  | [] => (calculate_relevance_score title content).1 = 0%float
  | _ :: _ => (0.5 <=? (calculate_relevance_score title content).1)%float = true
  end.
Proof.
  rewrite calculate_relevance_score_grid. cbn [fst snd].
  set (found := matched _ luxury_keywords).
  assert (units_sum found <= grid_max) as Hsum.
  { etrans; [apply units_sum_matched_le|]. vm_compute. lia. }
  destruct found as [|k l] eqn:E; [reflexivity|].
  change 0.5%float with (grid_score 0 1).
  apply grid_score_mono; [lia|apply bonus_class_lt| |done].
  cbn [units_sum foldr]. pose proof (weight_units_pos k). lia.
Qed.

(** ** Title scoring *)

Lemma title_found_loop (combined_text : string) (keywords found : list string) :
  fold_left
    (fun found keyword =>
       if contains (lower keyword) combined_text then found ++ [keyword] else found)
    keywords found
  = found ++ matched combined_text keywords.
Proof.
  unfold matched. revert found.
  induction keywords as [|k l IH]; intros found; simpl; [by rewrite app_nil_r|].
  rewrite IH. destruct (contains _ _); [|done].
  by rewrite <- app_assoc.
Qed.

Lemma float_of_len_whole (n : nat) :
  n <= 54 ->
  (float_of_len n * 1.0)%float = float_of_len n
  /\ (1.0 <=? float_of_len n * 1.0)%float = negb (n =? 0)%nat.
Proof.
  intros Hn.
  assert (Leibniz.eqb (float_of_len n * 1.0) (float_of_len n)
          && Bool.eqb (1.0 <=? float_of_len n * 1.0)%float (negb (n =? 0)%nat) = true) as H.
  { apply (forallb_seq_lt
             (fun n => Leibniz.eqb (float_of_len n * 1.0) (float_of_len n)
                       && Bool.eqb (1.0 <=? float_of_len n * 1.0)%float (negb (n =? 0)%nat))
             55); [|lia].
    vm_compute. reflexivity. }
  apply andb_true_iff in H as [H1 H2].
  split; [by apply Leibniz.eqb_spec | by apply Bool.eqb_prop].
Qed.

Lemma calculate_title_relevance_score_spec (title url : string) :
  let score := (calculate_title_relevance_score title url).1 in
  let found := (calculate_title_relevance_score title url).2 in
  found = (calculate_relevance_score title url).2
  /\ score = float_of_len (length found)
  /\ length found <= 54
  /\ ((1.0 <=? score)%float = true <-> found <> []).
Proof.
  unfold calculate_title_relevance_score. cbn [fst snd]. cbv zeta.
  rewrite calculate_relevance_score_grid, title_found_loop. cbn [snd app].
  set (found := matched _ luxury_keywords).
  assert (length found <= 54) as Hlen by apply matched_length.
  destruct (float_of_len_whole _ Hlen) as [H1 H2].
  split_and!; [done|done|done|].
  rewrite H2. destruct found; simpl; split; congruence.
Qed.

(** X5: the title score.  Stage 1 finds, in the lower-cased "title url"
    text, the same keywords Stage 2 finds in a text; its score is their
    number as a float, and it reaches the acceptance threshold 1.0 of the
    feed stage exactly when at least one keyword is found. *)
Theorem title_score_counts_keywords (title url : string) :
  let score := (calculate_title_relevance_score title url).1 in
  let found := (calculate_title_relevance_score title url).2 in
  found = (calculate_relevance_score title url).2
  /\ score = float_of_len (length found)
  /\ length found <= 54
  /\ ((1.0 <=? score)%float = true <-> found <> []).
Proof. apply calculate_title_relevance_score_spec. Qed.

(** ** Trailing slashes and the URL filter *)

Lemma rstrip_of_run (ch : ascii) (n : nat) : rstrip ch (run ch n) = EmptyString.
Proof. induction n as [|n IH]; simpl; [done|]. by rewrite IH, Ascii.eqb_refl. Qed.

Lemma rstrip_app_run (ch : ascii) (s : string) (n : nat) :
  rstrip ch (s +:+ run ch n) = rstrip ch s.
Proof.
  induction s as [|c s IH].
  - rewrite append_nil_l. apply rstrip_of_run.
  - rewrite append_cons. simpl. by rewrite IH.
Qed.

Lemma keyword_test_trailing_slashes (u : string) (n : nat) :
  existsb (fun keyword => contains (lower keyword) (lower (u +:+ run "/" n))) luxury_keywords
  = existsb (fun keyword => contains (lower keyword) (lower u)) luxury_keywords.
Proof.
  apply eq_true_iff_eq. rewrite !existsb_elem_of.
  split; intros (k & Hk & Hc); exists k; (split; [done|]);
    pose proof (proj1 (Forall_forall _ _) keywords_without_slash k Hk) as Hs;
    rewrite lower_app, lower_run_slash, contains_run_irrelevant in *; done.
Qed.

(** A denylist entry whose stripped form is not an entry is the site
    root, and no variant of the site root contains a keyword. *)
Lemma denylisted_unstripped_no_keyword (v : string) :
  str_in v national_jeweler_excluded = true ->
  str_in (rstrip "/" v) national_jeweler_excluded = false ->
  existsb (fun keyword => contains (lower keyword) (lower (rstrip "/" v))) luxury_keywords
  = false.
Proof.
  intros Hv Hr. apply str_in_spec in Hv.
  pose proof (proj1 (Forall_forall _ _) excluded_entries_rstrip v Hv) as [H|H];
    [congruence|].
  rewrite H. apply existsb_false_elem_of. intros keyword Hk.
  exact (proj1 (Forall_forall _ _) nj_root_has_no_keyword keyword Hk).
Qed.

Lemma is_relevant_url_slash_run (u : string) (n : nat) :
  is_relevant_url (u +:+ run "/" n) = is_relevant_url u.
Proof.
  unfold is_relevant_url.
  rewrite rstrip_app_run, keyword_test_trailing_slashes.
  destruct (str_in (rstrip "/" u) national_jeweler_excluded) eqn:A; [done|].
  cbn [orb].
  destruct (str_in u national_jeweler_excluded) eqn:B,
           (str_in (u +:+ run "/" n) national_jeweler_excluded) eqn:B'; try done.
  - pose proof (denylisted_unstripped_no_keyword u B A) as H.
    destruct (rstrip_run "/" u) as [m Hm].
    rewrite <- (keyword_test_trailing_slashes (rstrip "/" u) m), <- Hm in H.
    by rewrite H.
  - pose proof (denylisted_unstripped_no_keyword (u +:+ run "/" n) B') as H.
    rewrite rstrip_app_run in H. specialize (H A).
    destruct (rstrip_run "/" u) as [m Hm].
    rewrite <- (keyword_test_trailing_slashes (rstrip "/" u) m), <- Hm in H.
    by rewrite H.
Qed.

(** URLs that differ in their trailing slashes only get the same verdict. *)
Lemma is_relevant_url_rstrip (u v : string) :
  rstrip "/" u = rstrip "/" v -> is_relevant_url u = is_relevant_url v.
Proof.
  intros H. destruct (rstrip_run "/" u) as [m Hu], (rstrip_run "/" v) as [k Hv].
  rewrite Hu, Hv, !is_relevant_url_slash_run. by rewrite H.
Qed.

(** X6: trailing slashes never change the verdict of the URL filter:
    a URL and the same URL followed by any number of slashes are both
    accepted or both rejected. *)
Theorem is_relevant_url_trailing_slashes (u : string) (n : nat) :
  is_relevant_url (u +:+ run "/" n) = is_relevant_url u.
Proof. apply is_relevant_url_slash_run. Qed.

(** ** Merging the sitemap and the feed candidates *)

Lemma remove_duplicates_nil : remove_duplicates [] = [].
Proof. reflexivity. Qed.

Lemma url_not_in_spec (l : list ArticleCandidate) (c : ArticleCandidate) :
  url_not_in l c = true <-> url c ∉ map url l.
Proof.
  unfold url_not_in. rewrite negb_true_iff, <- not_true_iff_false.
  by rewrite str_in_spec.
Qed.

(** Duplicates are removed from a concatenation part by part: the second
    part loses, besides its own duplicates, the URLs of the first. *)
Lemma remove_duplicates_app (l1 l2 : list ArticleCandidate) :
  remove_duplicates (l1 ++ l2)
  = remove_duplicates l1 ++ List.filter (url_not_in l1) (remove_duplicates l2).
Proof.
  induction l2 as [|c l2 IH] using rev_ind.
  - by rewrite remove_duplicates_nil, !app_nil_r.
  - rewrite app_assoc, !remove_duplicates_snoc, IH, map_app.
    destruct (decide (url c ∈ map url l2)) as [H2|H2].
    + rewrite decide_True by (apply elem_of_app; by right). done.
    + rewrite List.filter_app. simpl.
      destruct (url_not_in l1 c) eqn:E.
      * apply url_not_in_spec in E.
        rewrite decide_False by (rewrite elem_of_app; tauto).
        by rewrite app_assoc.
      * apply not_true_iff_false in E. rewrite url_not_in_spec in E.
        rewrite decide_True by (apply elem_of_app; left; by apply dec_stable).
        by rewrite app_nil_r.
Qed.

Lemma merged_candidates_cases (w : World) (publication : string)
    (source_info : SourceInfo) :
  merged_candidates w publication source_info
  = if (length (sitemap_part w publication source_info) <? 10)%nat
    then sitemap_part w publication source_info
         ++ try_multiple_rss_feeds w publication (rss_feeds source_info)
    else sitemap_part w publication source_info.
Proof.
  unfold merged_candidates. cbv zeta. fold (sitemap_part w publication source_info).
  assert (sitemap_url source_info = None \/ sitemap_url source_info = Some EmptyString
          -> sitemap_part w publication source_info = []) as Hnone.
  { unfold sitemap_part. by intros [-> | ->]. }
  set (s := sitemap_part w publication source_info) in *.
  assert (try_multiple_rss_feeds w publication [] = []) as Hnil by done.
  destruct (length s <? 10)%nat eqn:El.
  - rewrite !orb_true_r. cbn [andb].
    destruct (rss_feeds source_info); [|done]. by rewrite Hnil, app_nil_r.
  - destruct s as [|c l] eqn:Es; [done|].
    destruct (sitemap_url source_info) as [u|]; [|by destruct Hnone; [left|]].
    destruct (String.eqb u "") eqn:E; [|done].
    apply String.eqb_eq in E as ->. by destruct Hnone; [right|].
Qed.

(** X7: the feed fallback of [collect_from_source].  With ten or more
    sitemap candidates the feeds are not consulted and the result is the
    sitemap candidates without duplicates.  With fewer than ten (none, or
    no sitemap configured), the feed candidates are appended: the result
    is the duplicate-free sitemap candidates, followed by the
    duplicate-free feed candidates whose URL no sitemap candidate has. *)
Theorem collect_from_source_feed_fallback (w : World) (publication : string)
    (source_info : SourceInfo) :
  let sitemap_candidates := sitemap_part w publication source_info in
  let rss_candidates :=
    try_multiple_rss_feeds w publication (rss_feeds source_info) in
  collect_from_source w publication source_info
  = if (length sitemap_candidates <? 10)%nat
    then remove_duplicates sitemap_candidates
         ++ List.filter (url_not_in sitemap_candidates) (remove_duplicates rss_candidates)
    else remove_duplicates sitemap_candidates.
Proof.
  cbv zeta. unfold collect_from_source. rewrite merged_candidates_cases.
  destruct (_ <? 10)%nat; [apply remove_duplicates_app | done].
Qed.

Lemma remove_duplicates_NoDup_id (l : list ArticleCandidate) :
  NoDup (map url l) -> remove_duplicates l = l.
Proof.
  induction l as [|c l IH] using rev_ind; [done|].
  rewrite map_app, NoDup_app. simpl. intros (Hl & Hc & _).
  rewrite remove_duplicates_snoc, decide_False, IH; [done..|].
  intros Hin. apply (Hc _ Hin). by left.
Qed.

(** X8: removing duplicates is idempotent, and it leaves a list of
    pairwise distinct URLs unchanged. *)
Theorem remove_duplicates_idempotent (all_candidates : list ArticleCandidate) :
  remove_duplicates (remove_duplicates all_candidates) = remove_duplicates all_candidates
  /\ (NoDup (map url all_candidates) -> remove_duplicates all_candidates = all_candidates).
Proof.
  split; [|apply remove_duplicates_NoDup_id].
  apply remove_duplicates_NoDup_id, remove_duplicates_NoDup.
Qed.

Lemma remove_duplicates_idempotent_witness :
  remove_duplicates [stub_candidate "A" "https://x.test/a"; stub_candidate "B" "https://x.test/b"]
  = [stub_candidate "A" "https://x.test/a"; stub_candidate "B" "https://x.test/b"].
Proof.
  apply (proj2 (remove_duplicates_idempotent
                  [stub_candidate "A" "https://x.test/a"; stub_candidate "B" "https://x.test/b"])).
  apply (bool_decide_unpack _). vm_compute. exact I.
Defined.

(** ** Decoding the sitemap body *)

Lemma decode_sitemap_first_parsed (w : World) (response : Response) :
  decode_sitemap w response = first_parsed w (decode_attempts w response).
Proof.
  unfold decode_sitemap, decode_attempts. cbn [first_parsed].
  destruct (parse_decoded w (Some (text response))); [done|].
  destruct (parse_decoded w (decode_utf8 w (content response))); [done|].
  destruct (parse_decoded w (Some (decode_latin1 w (content response)))); [done|].
  destruct (gzip_decompress w (content response)) as [decompressed|]; [|done].
  by destruct (parse_decoded w (decode_utf8 w decompressed)).
Qed.

(** X9: decoding the body of a sitemap.  For a response with status 200,
    the root used by [fetch_sitemap_articles] is the one of the first of
    four attempts that decodes and parses: the text of the transport
    layer, the raw body as UTF-8, the raw body as ISO-8859-1, the
    gzip-decompressed body as UTF-8.  Its candidates are those of that
    root; when no attempt parses, the result is no candidate and the
    message that the XML cannot be parsed. *)
Theorem sitemap_decoding_first_success (w : World) (publication sitemap_url : string)
    (response : Response) :
  make_request w sitemap_url 15 = Return response ->
  status_code response = 200%Z ->
  decode_sitemap w response = first_parsed w (decode_attempts w response)
  /\ match first_parsed w (decode_attempts w response) with
     | Some (_, root) =>
         (fetch_sitemap_articles w publication sitemap_url).1
         = relevant_candidates publication (sitemap_urls w root)
     | None =>
         fetch_sitemap_articles w publication sitemap_url = ([], [SitemapCannotParse])
     end.
Proof.
  intros Hreq Hstatus. split; [apply decode_sitemap_first_parsed|].
  rewrite <- decode_sitemap_first_parsed.
  unfold fetch_sitemap_articles. rewrite Hreq, Hstatus. cbn [Z.eqb Pos.eqb negb].
  by destruct (decode_sitemap w response) as [[xml_content root]|].
Qed.

Lemma sitemap_decoding_first_success_witness :
  decode_sitemap garbled_world
    {| status_code := 200; text := "?";
       content := String.list_byte_of_string "https://x.test/news.xml" |}
  = Some ("https://x.test/news.xml"%string,
          xml_urlset ["https://x.test/gold-market"; "https://x.test/about"]%string)
  /\ (fetch_sitemap_articles garbled_world "Demo" "https://x.test/news.xml").1
     = relevant_candidates "Demo"
         [("https://x.test/gold-market"%string, 0%Z); ("https://x.test/about"%string, 0%Z)].
Proof.
  destruct (sitemap_decoding_first_success garbled_world "Demo" "https://x.test/news.xml"
              {| status_code := 200; text := "?";
                 content := String.list_byte_of_string "https://x.test/news.xml" |})
    as [H1 H2].
  - reflexivity.
  - reflexivity.
  - split.
    + rewrite H1. vm_compute. reflexivity.
    + vm_compute. reflexivity.
Defined.

(** ** The candidates of the sitemap stage *)

Lemma is_relevant_url_keyword (u : string) :
  is_relevant_url u = true ->
  exists keyword, keyword ∈ luxury_keywords /\ occurs_in (lower keyword) (lower u).
Proof.
  unfold is_relevant_url. destruct (_ || _); [done|].
  rewrite existsb_elem_of. by setoid_rewrite contains_spec.
Qed.

Lemma relevant_candidates_elem_of (publication : string)
    (urls : list (string * datetime)) (candidate : ArticleCandidate) :
  candidate ∈ relevant_candidates publication urls <->
  exists entry, entry ∈ urls /\ is_relevant_url entry.1 = true
                /\ candidate = sitemap_candidate publication entry.
Proof.
  unfold relevant_candidates. rewrite list_elem_of_In, in_map_iff.
  setoid_rewrite List.filter_In. setoid_rewrite <- list_elem_of_In.
  naive_solver.
Qed.

Lemma fetch_sitemap_articles_elem_of (w : World) (publication sitemap_url : string)
    (candidate : ArticleCandidate) :
  candidate ∈ (fetch_sitemap_articles w publication sitemap_url).1 ->
  exists entry, is_relevant_url entry.1 = true
                /\ candidate = sitemap_candidate publication entry.
Proof.
  unfold fetch_sitemap_articles.
  destruct (make_request w sitemap_url 15) as [response|]; [|by intros ?%elem_of_nil].
  destruct (negb _); [by intros ?%elem_of_nil|].
  destruct (decode_sitemap w response) as [[xml_content root]|];
    [|by intros ?%elem_of_nil].
  cbn [fst]. rewrite relevant_candidates_elem_of. naive_solver.
Qed.

(** X10: what the sitemap stage hands on.  Every candidate returned by
    [fetch_sitemap_articles] passed the URL filter, so a configured
    keyword occurs in its lower-cased URL; it carries the publication
    name, and it is unscored: empty title and summary, score 0.0, no
    keywords, no content. *)
Theorem sitemap_candidates_relevant_unscored (w : World)
    (name sitemap_url : string) (candidate : ArticleCandidate) :
  candidate ∈ (fetch_sitemap_articles w name sitemap_url).1 ->
  is_relevant_url (url candidate) = true
  /\ (exists keyword, keyword ∈ luxury_keywords
                      /\ occurs_in (lower keyword) (lower (url candidate)))
  /\ publication candidate = name
  /\ title candidate = EmptyString
  /\ summary candidate = EmptyString
  /\ relevance_score candidate = 0%float
  /\ keywords_found candidate = []
  /\ full_content candidate = EmptyString.
Proof.
  intros (entry & Hrel & ->)%fetch_sitemap_articles_elem_of. cbn.
  split_and!; try done. by apply is_relevant_url_keyword.
Qed.

Lemma sitemap_candidates_relevant_unscored_witness :
  is_relevant_url "https://x.test/gold-market" = true.
Proof.
  apply (sitemap_candidates_relevant_unscored demo_world "Demo"
           "https://x.test/news.xml"
           (sitemap_candidate "Demo" ("https://x.test/gold-market"%string, 0%Z))).
  assert ((fetch_sitemap_articles demo_world "Demo" "https://x.test/news.xml").1
          = [sitemap_candidate "Demo" ("https://x.test/gold-market"%string, 0%Z)]) as ->
    by (vm_compute; reflexivity).
  left.
Defined.

(** ** Sitemap indexes *)

Lemma fetch_urls_from_sitemap_elem_of (w : World) (sitemap_url : string)
    (entry : string * datetime) :
  entry ∈ fetch_urls_from_sitemap w sitemap_url <->
  exists response document url_elem,
    make_request w sitemap_url 10 = Return response
    /\ status_code response = 200%Z
    /\ ET_fromstring_bytes w (content response) = Some document
    /\ url_elem ∈ elem_children document
    /\ url_entry w url_elem = Some entry.
Proof.
  unfold fetch_urls_from_sitemap. split.
  - destruct (make_request w sitemap_url 10) as [response|]; [|by intros ?%elem_of_nil].
    destruct (status_code response =? 200)%Z eqn:Es; [|by intros ?%elem_of_nil].
    destruct (ET_fromstring_bytes w (content response)) as [document|] eqn:Ep;
      [|by intros ?%elem_of_nil].
    intros (url_elem & Hin & Hentry)%list_elem_of_omap.
    apply Z.eqb_eq in Es. by exists response, document, url_elem.
  - intros (response & document & url_elem & -> & Hs & Hp & Hin & Hentry).
    rewrite Hs, Hp. cbn [Z.eqb Pos.eqb]. apply list_elem_of_omap. eauto.
Qed.

(** X11: an index is resolved one level deep.  When the root is a sitemap
    index, the URL list consists of the entries of the documents the
    index refers to directly: a pair is returned exactly when it is the
    entry of a top-level child of a document that some [<sitemap>] of
    the index locates, that was fetched with status 200 and that parsed.
    The tag of that document plays no role, so the entries of a nested
    index are returned as if they were pages, and the documents they
    locate are not fetched. *)
Theorem sitemap_index_one_level (w : World) (root : Element)
    (entry : string * datetime) :
  contains "sitemapindex" (elem_tag root) = true ->
  (entry ∈ sitemap_urls w root <->
   exists sitemap loc_elem response document url_elem,
     sitemap ∈ elem_children root
     /\ find_descendant ns_loc sitemap = Some loc_elem
     /\ make_request w (elem_text loc_elem) 10 = Return response
     /\ status_code response = 200%Z
     /\ ET_fromstring_bytes w (content response) = Some document
     /\ url_elem ∈ elem_children document
     /\ url_entry w url_elem = Some entry).
Proof.
  intros Hroot. unfold sitemap_urls. rewrite Hroot.
  rewrite list_elem_of_In, in_flat_map. setoid_rewrite <- list_elem_of_In. split.
  - intros (sitemap & Hin & Hentry).
    destruct (find_descendant ns_loc sitemap) as [loc_elem|] eqn:El;
      [|by apply elem_of_nil in Hentry].
    apply fetch_urls_from_sitemap_elem_of in Hentry
      as (response & document & url_elem & ?).
    exists sitemap, loc_elem, response, document, url_elem. naive_solver.
  - intros (sitemap & loc_elem & response & document & url_elem & Hin & El & ?).
    exists sitemap. split; [done|]. rewrite El.
    apply fetch_urls_from_sitemap_elem_of. eauto 10.
Qed.

Lemma sitemap_index_one_level_witness :
  ("https://x.test/archive-jewelry-2023.xml"%string, 0%Z)
    ∈ sitemap_urls demo_world
        (xml_sitemapindex ["https://x.test/news.xml"; "https://x.test/archive.xml"]%string).
Proof.
  apply (sitemap_index_one_level demo_world
           (xml_sitemapindex ["https://x.test/news.xml"; "https://x.test/archive.xml"]%string)).
  - reflexivity.
  - exists (xml_entry "{http://www.sitemaps.org/schemas/sitemap/0.9}sitemap"
              "https://x.test/archive.xml"),
           (Elem ns_loc "https://x.test/archive.xml" []),
           {| status_code := 200; text := "https://x.test/archive.xml";
              content := String.list_byte_of_string "https://x.test/archive.xml" |},
           (xml_sitemapindex ["https://x.test/archive-jewelry-2023.xml"]%string),
           (xml_entry "{http://www.sitemaps.org/schemas/sitemap/0.9}sitemap"
              "https://x.test/archive-jewelry-2023.xml").
    split_and!.
    + right. left.
    + reflexivity.
    + reflexivity.
    + reflexivity.
    + reflexivity.
    + left.
    + reflexivity.
Defined.

(** The demo site, whose index contains a nested index: the location of
    the nested document is returned as a candidate, the page it lists is
    not. *)
Example nested_index_entries_become_candidates :
  map url (fetch_sitemap_articles demo_world "Demo" "https://x.test/sitemap.xml").1
  = ["https://x.test/gold-market"; "https://x.test/archive-jewelry-2023.xml"]%string
  /\ is_relevant_url "https://x.test/2023/diamond-sale" = true.
Proof. split; vm_compute; reflexivity. Qed.

(** ** Searching a sitemap for one URL *)

Lemma search_loop_spec (search_url : string) (all_urls : list (string * datetime)) :
  let differs := fun entry : string * datetime =>
    entry.1 <> EmptyString /\ rstrip "/" entry.1 <> rstrip "/" search_url in
  match search_loop search_url all_urls with
  | Return (Some found_url) =>
      exists before d after,
        all_urls = before ++ (found_url, d) :: after
        /\ Forall differs before
        /\ found_url <> EmptyString
        /\ rstrip "/" found_url = rstrip "/" search_url
  | Return None => Forall differs all_urls
  | Raise _ =>
      exists before d after,
        all_urls = before ++ (EmptyString, d) :: after /\ Forall differs before
  end.
Proof.
  intros differs. induction all_urls as [|[u d] l IH]; cbn [search_loop]; [done|].
  destruct (String.eqb u "") eqn:Ee.
  { apply String.eqb_eq in Ee as ->. by exists [], d, l. }
  apply String.eqb_neq in Ee.
  destruct (String.eqb u search_url
            || String.eqb (rstrip "/" search_url) (rstrip "/" u)) eqn:Em.
  - exists [], d, l. split_and!; try done.
    apply orb_true_iff in Em as [->%String.eqb_eq | Em%String.eqb_eq]; done.
  - apply orb_false_iff in Em as [_ Em%String.eqb_neq].
    assert (differs (u, d)) as Hd by (split; cbn; congruence).
    destruct (search_loop search_url l) as [[found_url|]|].
    + destruct IH as (before & d' & after & -> & Hb & ?).
      exists ((u, d) :: before), d', after. split; [done|]. split; [by constructor|done].
    + by constructor.
    + destruct IH as (before & d' & after & -> & Hb).
      exists ((u, d) :: before), d', after. split; [done|by constructor].
Qed.

Lemma search_decode_text_parsed (w : World) (response : Response) :
  search_decode w response = Some (ET_fromstring w (text response)).
Proof. reflexivity. Qed.

(** X12: what a search reports.  When the sitemap of the publication is
    fetched with status 200 and the text of the response parses, the
    search reports the first URL of the sitemap that equals the searched
    URL up to trailing slashes, with the total number of URLs; it reports
    "not found" exactly when no URL of the sitemap matches, and an error
    when it meets an element without text before any match. *)
Theorem search_reports_first_match (w : World)
    (target_sources : list (string * SourceInfo)) (publication search_url : string)
    (source_info : SourceInfo) (sitemap : string) (response : Response)
    (root : Element) :
  lookup_source target_sources publication = Some source_info ->
  sitemap_url source_info = Some sitemap ->
  sitemap <> EmptyString ->
  make_request w sitemap 15 = Return response ->
  status_code response = 200%Z ->
  ET_fromstring w (text response) = Some root ->
  let all_urls := search_all_urls w root in
  let differs := fun entry : string * datetime =>
    entry.1 <> EmptyString /\ rstrip "/" entry.1 <> rstrip "/" search_url in
  match search_url_in_sitemap w target_sources publication search_url with
  | UrlFound found_url is_relevant total =>
      total = length all_urls
      /\ rstrip "/" found_url = rstrip "/" search_url
      /\ (exists before d after,
            all_urls = before ++ (found_url, d) :: after /\ Forall differs before)
  | UrlNotFound total searched =>
      total = length all_urls /\ searched = search_url /\ Forall differs all_urls
  | SearchError UrlIsNone =>
      exists before d after,
        all_urls = before ++ (EmptyString, d) :: after /\ Forall differs before
  | _ => False
  end.
Proof.
  intros Hsrc Hsm Hne Hreq Hst Hroot all_urls differs.
  unfold search_url_in_sitemap. rewrite Hsrc, Hsm.
  apply String.eqb_neq in Hne. rewrite Hne, Hreq, Hst. cbn [Z.eqb Pos.eqb negb].
  rewrite search_decode_text_parsed, Hroot. cbv zeta.
  pose proof (search_loop_spec search_url (search_all_urls w root)) as H.
  cbv zeta in H. fold all_urls in H |- *.
  destruct (search_loop search_url all_urls) as [[found_url|]|]; [|done..].
  destruct H as (before & d & after & Heq & Hb & _ & Hr).
  split_and!; [done|done|]. by exists before, d, after.
Qed.

Lemma search_reports_first_match_witness :
  search_url_in_sitemap demo_world demo_sources "Demo" "https://x.test/about//"
  = UrlFound "https://x.test/about" false 3
  /\ 3 = length (search_all_urls demo_world
                   (xml_sitemapindex ["https://x.test/news.xml";
                                      "https://x.test/archive.xml"]%string))
  /\ rstrip "/" "https://x.test/about" = rstrip "/" "https://x.test/about//".
Proof.
  pose proof (search_reports_first_match demo_world demo_sources "Demo"
                "https://x.test/about//"
                {| base_url := "https://x.test"; rss_feeds := [];
                   sitemap_url := Some "https://x.test/sitemap.xml"%string |}
                "https://x.test/sitemap.xml"
                {| status_code := 200; text := "https://x.test/sitemap.xml";
                   content := String.list_byte_of_string "https://x.test/sitemap.xml" |}
                (xml_sitemapindex ["https://x.test/news.xml"; "https://x.test/archive.xml"]%string)
                eq_refl eq_refl ltac:(discriminate) eq_refl eq_refl eq_refl) as H.
  cbv zeta in H.
  assert (search_url_in_sitemap demo_world demo_sources "Demo" "https://x.test/about//"
          = UrlFound "https://x.test/about" false 3) as E by (vm_compute; reflexivity).
  rewrite E in H. destruct H as (H1 & H2 & _).
  split; [exact E|]. split; [exact H1 | exact H2].
Defined.

(** X13: the relevance a search reports.  Whenever a search finds a URL,
    the URL found equals the searched one up to trailing slashes, it is
    not empty, and the reported flag is the verdict of the URL filter on
    the searched URL itself. *)
Theorem search_found_relevance (w : World)
    (target_sources : list (string * SourceInfo)) (publication search_url : string)
    (found_url : string) (is_relevant : bool) (total : nat) :
  search_url_in_sitemap w target_sources publication search_url
  = UrlFound found_url is_relevant total ->
  rstrip "/" found_url = rstrip "/" search_url
  /\ found_url <> EmptyString
  /\ is_relevant = is_relevant_url search_url.
Proof.
  unfold search_url_in_sitemap.
  destruct (lookup_source target_sources publication) as [source_info|]; [|done].
  destruct (sitemap_url source_info) as [sitemap|]; [|done].
  destruct (String.eqb sitemap ""); [done|].
  destruct (make_request w sitemap 15) as [response|]; [|done].
  destruct (negb _); [done|].
  destruct (search_decode w response) as [[root|]|]; [|done..].
  cbv zeta.
  pose proof (search_loop_spec search_url (search_all_urls w root)) as H.
  cbv zeta in H.
  destruct (search_loop search_url (search_all_urls w root)) as [[u|]|]; [|done..].
  destruct H as (before & d & after & Heq & Hb & Hne & Hr).
  intros [= <- <- <-]. split_and!; [done|done|].
  by apply is_relevant_url_rstrip.
Qed.

Lemma search_found_relevance_witness :
  rstrip "/" "https://x.test/about" = rstrip "/" "https://x.test/about//"
  /\ "https://x.test/about"%string <> EmptyString
  /\ false = is_relevant_url "https://x.test/about//".
Proof.
  apply (search_found_relevance demo_world demo_sources "Demo"
           "https://x.test/about//" "https://x.test/about" false 3).
  vm_compute. reflexivity.
Defined.

(** X14: the fallback decodings of the search are never used.  When the
    text of the response does not parse, [search_url_in_sitemap] reports
    an error for the unbound [root], whatever the raw body is: also for a
    body that [fetch_sitemap_articles] decodes with its second, third or
    fourth strategy. *)
Theorem search_fallback_decodings_unused (w : World)
    (target_sources : list (string * SourceInfo)) (publication search_url : string)
    (source_info : SourceInfo) (sitemap : string) (response : Response) :
  lookup_source target_sources publication = Some source_info ->
  sitemap_url source_info = Some sitemap ->
  sitemap <> EmptyString ->
  make_request w sitemap 15 = Return response ->
  status_code response = 200%Z ->
  ET_fromstring w (text response) = None ->
  search_url_in_sitemap w target_sources publication search_url
  = SearchError RootUnbound.
Proof.
  intros Hsrc Hsm Hne Hreq Hst Hroot.
  unfold search_url_in_sitemap. rewrite Hsrc, Hsm.
  apply String.eqb_neq in Hne. rewrite Hne, Hreq, Hst. cbn [Z.eqb Pos.eqb negb].
  by rewrite search_decode_text_parsed, Hroot.
Qed.

Lemma search_fallback_decodings_unused_witness :
  search_url_in_sitemap garbled_world demo_sources "Demo" "https://x.test/gold-market"
  = SearchError RootUnbound
  /\ map url (fetch_sitemap_articles garbled_world "Demo" "https://x.test/sitemap.xml").1
     = ["https://x.test/gold-market"; "https://x.test/archive-jewelry-2023.xml"]%string.
Proof.
  split.
  - apply (search_fallback_decodings_unused garbled_world demo_sources "Demo"
             "https://x.test/gold-market"
             {| base_url := "https://x.test"; rss_feeds := [];
                sitemap_url := Some "https://x.test/sitemap.xml"%string |}
             "https://x.test/sitemap.xml"
             {| status_code := 200; text := "?";
                content := String.list_byte_of_string "https://x.test/sitemap.xml" |});
      [reflexivity|reflexivity|discriminate|reflexivity|reflexivity|reflexivity].
  - vm_compute. reflexivity.
Defined.

(** ** The content stage *)

Lemma extract_full_content_inv (w : World) (candidate enhanced : ArticleCandidate) :
  extract_full_content w candidate = Some enhanced ->
  exists response article,
    make_request w (url candidate) 20 = Return response
    /\ status_code response = 200%Z
    /\ article_parse w (url candidate) (text response) = Some article
    /\ 150 <= String.length (art_text article)
    /\ url enhanced = url candidate
    /\ publication enhanced = publication candidate
    /\ published_date enhanced = published_date candidate
    /\ full_content enhanced = art_text article
    /\ title enhanced
       = (if String.eqb (title candidate) "" then art_title article else title candidate)
    /\ relevance_score enhanced
       = (calculate_relevance_score (title enhanced) (full_content enhanced)).1
    /\ keywords_found enhanced
       = (calculate_relevance_score (title enhanced) (full_content enhanced)).2
    /\ author enhanced = extract_author w article (art_text article)
    /\ summary enhanced
       = (if (String.length (summary candidate) <? String.length (meta_description article))%nat
          then meta_description article else summary candidate).
Proof.
  unfold extract_full_content.
  destruct (make_request w (url candidate) 20) as [response|]; [|done].
  destruct (status_code response =? 200)%Z eqn:Es; [|done]. cbn [negb].
  destruct (article_parse w (url candidate) (text response)) as [article|] eqn:Ep;
    [|done].
  destruct (String.eqb (art_text article) "") eqn:Et; [done|]. cbn [orb].
  destruct (String.length (art_text article) <? 150)%nat eqn:El; [done|].
  intros H. apply (inj Some) in H. rewrite <- H.
  cbn [url publication published_date full_content title relevance_score
       keywords_found author summary].
  exists response, article. apply Z.eqb_eq in Es. apply Nat.ltb_ge in El.
  split_and!; try done.
  - destruct (String.eqb (title candidate) "") eqn:E1; [|done].
    destruct (String.eqb (art_title article) "") eqn:E2; [|done].
    apply String.eqb_eq in E1, E2. cbn [negb andb]. by rewrite E1, E2.
  - destruct (String.eqb (meta_description article) "") eqn:Em; [|done].
    apply String.eqb_eq in Em. rewrite Em. cbn [negb andb String.length].
    by rewrite (proj2 (Nat.ltb_ge _ 0)) by lia.
Qed.

(** X15: what the content stage changes.  An article returned by
    [extract_full_content] keeps the URL, the publication and the date of
    its candidate, and a title that was not empty; its content is the
    extracted text, of at least 150 characters; its score and keywords
    are those of [calculate_relevance_score] on its title and content,
    whatever the candidate carried before; and its summary is never
    shorter than the candidate's. *)
Theorem extract_full_content_result (w : World) (candidate enhanced : ArticleCandidate) :
  extract_full_content w candidate = Some enhanced ->
  url enhanced = url candidate
  /\ publication enhanced = publication candidate
  /\ published_date enhanced = published_date candidate
  /\ (title candidate <> EmptyString -> title enhanced = title candidate)
  /\ 150 <= String.length (full_content enhanced)
  /\ relevance_score enhanced
     = (calculate_relevance_score (title enhanced) (full_content enhanced)).1
  /\ keywords_found enhanced
     = (calculate_relevance_score (title enhanced) (full_content enhanced)).2
  /\ String.length (summary candidate) <= String.length (summary enhanced).
Proof.
  intros (response & article & _ & _ & _ & Hlen & Hu & Hp & Hd & Hc & Ht & Hs & Hk
          & _ & Hsum)%extract_full_content_inv.
  split_and!; try done.
  - intros Hne. apply String.eqb_neq in Hne. by rewrite Ht, Hne.
  - by rewrite Hc.
  - rewrite Hsum. destruct (_ <? _)%nat eqn:E; [|done].
    apply Nat.ltb_lt in E. lia.
Qed.

Lemma extract_full_content_result_witness :
  url demo_enhanced = url demo_candidate
  /\ 150 <= String.length (full_content demo_enhanced).
Proof.
  destruct (extract_full_content_result demo_world demo_candidate demo_enhanced)
    as (H1 & _ & _ & _ & H5 & _).
  - vm_compute. reflexivity.
  - split; [exact H1 | exact H5].
Defined.

(** X16: the content stage has no score threshold.  A candidate whose
    page is fetched with status 200 and parsed into a text of at least
    150 characters is returned as an article, with its Stage-2 score,
    however low that score is. *)
Theorem content_stage_no_score_threshold (w : World) (candidate : ArticleCandidate)
    (response : Response) (article : ParsedArticle) :
  make_request w (url candidate) 20 = Return response ->
  status_code response = 200%Z ->
  article_parse w (url candidate) (text response) = Some article ->
  150 <= String.length (art_text article) ->
  exists enhanced,
    extract_full_content w candidate = Some enhanced
    /\ full_content enhanced = art_text article
    /\ relevance_score enhanced
       = (calculate_relevance_score (title enhanced) (art_text article)).1.
Proof.
  intros Hreq Hst Hparse Hlen. unfold extract_full_content.
  rewrite Hreq, Hst, Hparse. cbn [Z.eqb Pos.eqb negb].
  assert (String.eqb (art_text article) "" = false) as ->.
  { apply String.eqb_neq. intros E. rewrite E in Hlen. simpl in Hlen. lia. }
  rewrite (proj2 (Nat.ltb_ge _ _) Hlen). cbn [orb].
  eexists. split; [reflexivity|]. by cbn [full_content relevance_score title].
Qed.

Lemma content_stage_no_score_threshold_witness :
  exists enhanced,
    extract_full_content demo_world demo_candidate = Some enhanced
    /\ full_content enhanced = "Prices moved sideways. " +:+ run "." 150
    /\ relevance_score enhanced
       = (calculate_relevance_score (title enhanced)
            ("Prices moved sideways. " +:+ run "." 150)).1.
Proof.
  apply (content_stage_no_score_threshold demo_world demo_candidate
           {| status_code := 200; text := "https://x.test/gold-market";
              content := String.list_byte_of_string "https://x.test/gold-market" |}
           {| art_title := "Weekly market notes";
              art_text := "Prices moved sideways. " +:+ run "." 150;
              art_authors := ["A. Writer"%string];
              meta_description := "Notes" |}).
  - reflexivity.
  - reflexivity.
  - reflexivity.
  - vm_compute. lia.
Defined.

(** In the demo run the only article has score 0.0, and it is selected. *)
Example zero_score_article_selected :
  collect_top_3_per_publication demo_world demo_sources None = [demo_enhanced]
  /\ relevance_score demo_enhanced = 0%float.
Proof. split; vm_compute; reflexivity. Qed.

(** ** The download loop *)

Lemma download_loop_omap (w : World) (candidates : list ArticleCandidate) :
  forall idx publication_articles,
    idx + length candidates <= 100 ->
    download_loop w idx candidates publication_articles
    = publication_articles ++ omap (extract_full_content w) candidates.
Proof.
  induction candidates as [|c l IH]; intros idx acc Hidx; cbn [download_loop].
  { by rewrite app_nil_r. }
  cbn [length] in Hidx.
  assert (match extract_full_content w c with
          | Some enhanced => acc ++ [enhanced]
          | None => acc
          end ++ omap (extract_full_content w) l
          = acc ++ omap (extract_full_content w) (c :: l)) as Hstep.
  { cbn [omap list_omap]. destruct (extract_full_content w c); [|done].
    by rewrite <- app_assoc. }
  destruct (99 <=? idx)%nat eqn:E.
  - apply Nat.leb_le in E. destruct l; [|cbn [length] in Hidx; lia].
    rewrite <- Hstep. by rewrite app_nil_r.
  - apply Nat.leb_gt in E. rewrite IH by lia. exact Hstep.
Qed.

Lemma take_min_length {A} (l : list A) (n : nat) :
  take (Nat.min (length l) n) l = take n l.
Proof.
  destruct (Nat.le_gt_cases (length l) n).
  - rewrite Nat.min_l by done. by rewrite !take_ge.
  - by rewrite Nat.min_r by lia.
Qed.

Lemma download_and_score_omap (w : World) (candidates : list ArticleCandidate) :
  download_and_score w candidates
  = omap (extract_full_content w) (take 100 candidates).
Proof.
  unfold download_and_score. cbv zeta. rewrite take_min_length.
  rewrite download_loop_omap; [done|].
  rewrite length_take. lia.
Qed.

Lemma omap_extract_urls (w : World) (l : list ArticleCandidate) :
  sublist (map url (omap (extract_full_content w) l)) (map url l).
Proof.
  induction l as [|c l IH]; cbn [omap list_omap map]; [constructor|].
  destruct (extract_full_content w c) as [e|] eqn:E.
  - apply extract_full_content_inv in E
      as (_ & _ & _ & _ & _ & _ & Hu & _).
    cbn [map]. rewrite Hu. by constructor.
  - by constructor.
Qed.

(** X17: the download stage.  STAGE 2 tries the first 100 candidates, in
    order, and keeps the articles the content stage returns: the [break]
    at index 99 cuts nothing the slice has not cut.  So it makes at most
    100 articles, candidates beyond the hundredth play no role, and the
    URLs of the articles are URLs of the first 100 candidates, in their
    order. *)
Theorem download_stage_first_hundred (w : World) (candidates : list ArticleCandidate) :
  download_and_score w candidates
  = omap (extract_full_content w) (take 100 candidates)
  /\ download_and_score w candidates = download_and_score w (take 100 candidates)
  /\ length (download_and_score w candidates) <= 100
  /\ sublist (map url (download_and_score w candidates))
             (map url (take 100 candidates)).
Proof.
  rewrite !download_and_score_omap. split_and!.
  - done.
  - by rewrite take_take.
  - rewrite <- (length_map url).
    etrans; [apply sublist_length, omap_extract_urls|].
    rewrite length_map, length_take. lia.
  - apply omap_extract_urls.
Qed.

(** ** The whole collection *)

Lemma publication_top_3_cases (w : World) (publication : string)
    (source_info : SourceInfo) :
  publication_top_3 w publication source_info
  = select_top_3 (download_and_score w (collect_from_source w publication source_info)).
Proof.
  unfold publication_top_3.
  by destruct (collect_from_source w publication source_info).
Qed.

Lemma publication_top_3_length (w : World) (publication : string)
    (source_info : SourceInfo) :
  length (publication_top_3 w publication source_info) <= 3.
Proof.
  rewrite publication_top_3_cases. unfold select_top_3. rewrite length_take. lia.
Qed.

Lemma sublist_map {A B} (f : A -> B) (l1 l2 : list A) :
  sublist l1 l2 -> sublist (map f l1) (map f l2).
Proof. induction 1; cbn [map]; by constructor. Qed.

Lemma flat_map_all_nil {A B} (f : A -> list B) (l : list A) :
  Forall (fun x => f x = []) l -> flat_map f l = [].
Proof. induction 1 as [|x l Hx _ IH]; cbn [flat_map]; [done|]. by rewrite Hx, IH. Qed.

Lemma publication_top_3_NoDup (w : World) (publication : string)
    (source_info : SourceInfo) :
  NoDup (map url (publication_top_3 w publication source_info)).
Proof.
  rewrite publication_top_3_cases. unfold select_top_3.
  eapply sublist_NoDup; [|apply sublist_map, sublist_take].
  rewrite (Permutation_map url (sort_by_score_desc_perm _)).
  eapply sublist_NoDup; [|rewrite download_and_score_omap; apply omap_extract_urls].
  eapply sublist_NoDup; [|apply sublist_map, sublist_take].
  apply remove_duplicates_NoDup.
Qed.

(** X18: the result of a publication.  Each publication contributes at
    most three articles, with pairwise distinct URLs, in descending score
    order; so the whole collection has at most three articles for every
    publication name it is run on. *)
Theorem at_most_three_per_publication (w : World)
    (target_sources : list (string * SourceInfo))
    (sources_subset : option (list string)) :
  (forall publication source_info,
      length (publication_top_3 w publication source_info) <= 3
      /\ NoDup (map url (publication_top_3 w publication source_info))
      /\ StronglySorted score_ge (publication_top_3 w publication source_info))
  /\ length (collect_top_3_per_publication w target_sources sources_subset)
     <= 3 * match sources_subset with
            | Some (s :: l) => length (s :: l)
            | _ => length target_sources
            end.
Proof.
  split.
  - intros publication source_info. split_and!.
    + apply publication_top_3_length.
    + apply publication_top_3_NoDup.
    + rewrite publication_top_3_cases. unfold select_top_3.
      pose proof (sort_by_score_desc_sorted _
                    (download_and_score_scored w
                       (collect_from_source w publication source_info))) as Hs.
      rewrite <- (take_drop 3 (sort_by_score_desc _)) in Hs.
      by apply StronglySorted_app_1_l in Hs.
  - unfold collect_top_3_per_publication. cbv zeta.
    assert (forall names,
              length (flat_map
                        (fun publication =>
                           match lookup_source target_sources publication with
                           | Some source_info => publication_top_3 w publication source_info
                           | None => []
                           end) names)
              <= 3 * length names) as Hbound.
    { induction names as [|p names IH]; cbn [flat_map length]; [lia|].
      rewrite length_app.
      assert (length match lookup_source target_sources p with
                     | Some source_info => publication_top_3 w p source_info
                     | None => []
                     end <= 3) as Hp.
      { destruct (lookup_source target_sources p);
          [apply publication_top_3_length | cbn; lia]. }
      lia. }
    destruct sources_subset as [[|s l]|].
    + etrans; [apply Hbound|]. by rewrite length_map.
    + apply Hbound.
    + etrans; [apply Hbound|]. by rewrite length_map.
Qed.

Lemma lookup_source_unknown (target_sources : list (string * SourceInfo))
    (publication : string) :
  lookup_source target_sources publication = None <->
  publication ∉ map fst target_sources.
Proof.
  induction target_sources as [|[name info] l IH]; cbn [lookup_source map fst].
  - split; [intros _; apply not_elem_of_nil | done].
  - rewrite not_elem_of_cons. destruct (String.eqb name publication) eqn:E.
    + apply String.eqb_eq in E. split; [done|]. intros [H _]. congruence.
    + apply String.eqb_neq in E. rewrite IH. split; [|tauto].
      intros H. split; [congruence | done].
Qed.

(** X19: the selection of sources.  An empty [sources_subset] selects
    every configured source, like no subset at all; the names of a
    non-empty subset are processed in the given order, one after the
    other; and a name that is not configured contributes nothing, so a
    non-empty subset of unknown names yields no article (not all
    sources). *)
Theorem sources_subset_selection (w : World)
    (target_sources : list (string * SourceInfo)) :
  collect_top_3_per_publication w target_sources (Some [])
  = collect_top_3_per_publication w target_sources None
  /\ (forall names names',
        names <> [] -> names' <> [] ->
        collect_top_3_per_publication w target_sources (Some (names ++ names'))
        = collect_top_3_per_publication w target_sources (Some names)
          ++ collect_top_3_per_publication w target_sources (Some names'))
  /\ (forall names,
        names <> [] ->
        (forall publication, publication ∈ names ->
                             publication ∉ map fst target_sources) ->
        collect_top_3_per_publication w target_sources (Some names) = []).
Proof.
  split_and!.
  - reflexivity.
  - intros [|s l] [|s' l'] H H'; try done.
    unfold collect_top_3_per_publication. cbn [app]. cbv zeta.
    change (s :: (l ++ s' :: l')) with ((s :: l) ++ s' :: l').
    apply flat_map_app.
  - intros [|s l] H Hun; [done|].
    unfold collect_top_3_per_publication. cbv zeta.
    apply flat_map_all_nil.
    apply Forall_forall. intros p Hp.
    apply Hun, lookup_source_unknown in Hp. by rewrite Hp.
Qed.

Lemma sources_subset_selection_witness :
  collect_top_3_per_publication demo_world demo_sources (Some ["Unknown"%string]) = []
  /\ collect_top_3_per_publication demo_world demo_sources (Some []) = [demo_enhanced].
Proof.
  split.
  - apply (proj2 (proj2 (sources_subset_selection demo_world demo_sources))
             ["Unknown"%string]); [discriminate|].
    intros publication ->%list_elem_of_singleton.
    apply (bool_decide_unpack _). vm_compute. exact I.
  - rewrite (proj1 (sources_subset_selection demo_world demo_sources)).
    vm_compute. reflexivity.
Defined.

(** ** The feed stage *)

Lemma rss_entry_candidate_inv (w : World) (name : string) (entry : FeedEntry)
    (candidate : ArticleCandidate) :
  rss_entry_candidate w name entry = Some candidate ->
  title candidate = strip (entry_title entry)
  /\ url candidate = strip (entry_link entry)
  /\ summary candidate = strip (entry_summary entry)
  /\ publication candidate = name
  /\ title candidate <> EmptyString
  /\ url candidate <> EmptyString
  /\ (1.0 <=? (calculate_title_relevance_score (title candidate) (url candidate)).1)%float
     = true
  /\ relevance_score candidate
     = (calculate_title_relevance_score (title candidate) (url candidate)).1
  /\ keywords_found candidate
     = (calculate_title_relevance_score (title candidate) (url candidate)).2.
Proof.
  unfold rss_entry_candidate. cbv zeta.
  destruct (match entry_published entry with
            | Some parsed => parsed
            | None => Some (now w)
            end) as [pub_date|]; [|done].
  destruct (String.eqb (strip (entry_title entry)) "") eqn:Et; [done|].
  destruct (String.eqb (strip (entry_link entry)) "") eqn:Eu; [done|].
  cbn [orb].
  destruct (1.0 <=? _)%float eqn:Es; [|done].
  intros H. apply (inj Some) in H. rewrite <- H.
  cbn [title url summary publication relevance_score keywords_found].
  apply String.eqb_neq in Et, Eu. by split_and!.
Qed.

Lemma try_rss_feed_impl_elem_of (w : World) (fw : FeedWorld) (name feed_url : string)
    (candidate : ArticleCandidate) :
  candidate ∈ try_rss_feed_impl w fw name feed_url ->
  exists entry, rss_entry_candidate w name entry = Some candidate.
Proof.
  unfold try_rss_feed_impl. destruct (String.eqb feed_url ""); [by intros ?%elem_of_nil|].
  cbv zeta.
  destruct (if existsb (fun domain => contains domain feed_url) premium_domains
               && scraper_is_curl_cffi fw
            then scraper_get fw feed_url else make_request w feed_url 10)
    as [response|]; [|by intros ?%elem_of_nil].
  destruct (negb _); [by intros ?%elem_of_nil|].
  destruct (feedparser_parse fw (content response)) as [entries|];
    [|by intros ?%elem_of_nil].
  intros (entry & _ & H)%list_elem_of_omap. by exists entry.
Qed.

Lemma calculate_title_relevance_score_found (title url : string) :
  (calculate_title_relevance_score title url).2
  = matched (lower (fmt_pair title url)) luxury_keywords.
Proof.
  unfold calculate_title_relevance_score. cbn [snd]. cbv zeta.
  by rewrite title_found_loop.
Qed.

Lemma try_rss_feed_impl_inv (w : World) (fw : FeedWorld)
    (name feed_url : string) (candidate : ArticleCandidate) :
  candidate ∈ try_rss_feed_impl w fw name feed_url ->
  title candidate <> EmptyString
  /\ url candidate <> EmptyString
  /\ publication candidate = name
  /\ keywords_found candidate <> []
  /\ keywords_found candidate
     = (calculate_title_relevance_score (title candidate) (url candidate)).2
  /\ relevance_score candidate = float_of_len (length (keywords_found candidate))
  /\ (1.0 <=? relevance_score candidate)%float = true
  /\ (exists keyword,
        keyword ∈ luxury_keywords
        /\ occurs_in (lower keyword) (lower (fmt_pair (title candidate) (url candidate)))).
Proof.
  intros (entry & H)%try_rss_feed_impl_elem_of.
  apply rss_entry_candidate_inv in H as (_ & _ & _ & Hp & Ht & Hu & Hs & Hscore & Hk).
  pose proof (calculate_title_relevance_score_spec (title candidate) (url candidate))
    as (_ & Hlen & _ & Hiff).
  pose proof (calculate_title_relevance_score_found (title candidate) (url candidate))
    as Hm.
  assert (keywords_found candidate <> []) as Hne by (rewrite Hk; exact (proj1 Hiff Hs)).
  split_and!; [exact Ht|exact Hu|exact Hp|exact Hne|exact Hk| | | ].
  - rewrite Hscore, Hk. exact Hlen.
  - rewrite Hscore. exact Hs.
  - destruct (keywords_found candidate) as [|keyword l] eqn:E; [done|].
    exists keyword.
    apply (matched_elem_of _ luxury_keywords).
    rewrite <- Hm, <- Hk. left.
Qed.

(** X20: what the feed stage hands on.  Every candidate returned by
    [try_rss_feed] has a non-empty title and a non-empty URL, carries the
    publication name, and names at least one configured keyword in its
    lower-cased "title url" text; its keywords are those Stage 1 finds
    there and its provisional score is their number, at least 1.0. *)
Theorem rss_candidates_have_keyword (w : World) (fw : FeedWorld)
    (name feed_url : string) (candidate : ArticleCandidate) :
  candidate ∈ try_rss_feed_impl w fw name feed_url ->
  title candidate <> EmptyString
  /\ url candidate <> EmptyString
  /\ publication candidate = name
  /\ keywords_found candidate <> []
  /\ keywords_found candidate
     = (calculate_title_relevance_score (title candidate) (url candidate)).2
  /\ relevance_score candidate = float_of_len (length (keywords_found candidate))
  /\ (1.0 <=? relevance_score candidate)%float = true
  /\ (exists keyword,
        keyword ∈ luxury_keywords
        /\ occurs_in (lower keyword) (lower (fmt_pair (title candidate) (url candidate)))).
Proof. apply try_rss_feed_impl_inv. Qed.

Lemma rss_candidates_have_keyword_witness :
  try_rss_feed_impl demo_world demo_feed "Demo" "https://x.test/feed"
  = [demo_rss_candidate]
  /\ (1.0 <=? relevance_score demo_rss_candidate)%float = true.
Proof.
  assert (try_rss_feed_impl demo_world demo_feed "Demo" "https://x.test/feed"
          = [demo_rss_candidate]) as E by (vm_compute; reflexivity).
  split; [exact E|].
  apply (rss_candidates_have_keyword demo_world demo_feed "Demo" "https://x.test/feed"
           demo_rss_candidate).
  rewrite E. left.
Defined.

(** ** Stage 1 as a whole *)

(** X21: every Stage-1 candidate names a keyword.  When the feeds are
    read by [try_rss_feed], every candidate that [collect_from_source]
    returns, from the sitemap or from a feed, has a configured keyword in
    its lower-cased "title url" text (for a sitemap candidate, whose
    title is empty, in its URL). *)
Theorem stage1_candidates_have_keyword (w : World) (fw : FeedWorld)
    (name : string) (source_info : SourceInfo) (candidate : ArticleCandidate) :
  (forall publication feed_url,
      try_rss_feed w publication feed_url = try_rss_feed_impl w fw publication feed_url) ->
  candidate ∈ collect_from_source w name source_info ->
  exists keyword,
    keyword ∈ luxury_keywords
    /\ occurs_in (lower keyword) (lower (fmt_pair (title candidate) (url candidate))).
Proof.
  intros Hfeeds Hin.
  apply (fun H => elem_of_sublist _ _ _ H (remove_duplicates_sublist _)) in Hin.
  rewrite merged_candidates_cases in Hin.
  assert (candidate ∈ sitemap_part w name source_info
          \/ candidate ∈ try_multiple_rss_feeds w name (rss_feeds source_info))
    as [Hs|Hr].
  { destruct (_ <? 10)%nat; [by apply elem_of_app in Hin | by left]. }
  - unfold sitemap_part in Hs.
    destruct (sitemap_url source_info) as [u|]; [|by apply elem_of_nil in Hs].
    destruct (String.eqb u ""); [by apply elem_of_nil in Hs|].
    apply fetch_sitemap_articles_elem_of in Hs as (entry & Hrel & ->).
    apply is_relevant_url_keyword in Hrel as (keyword & Hk & Hocc).
    exists keyword. split; [done|]. cbn [title url sitemap_candidate].
    unfold fmt_pair. rewrite append_nil_l, lower_app.
    destruct Hocc as (pre & post & ->).
    exists (lower " " +:+ pre), post. by rewrite !append_assoc.
  - unfold try_multiple_rss_feeds in Hr.
    apply list_elem_of_In, in_flat_map in Hr as (feed_url & _ & Hr).
    apply list_elem_of_In in Hr. rewrite Hfeeds in Hr.
    by apply try_rss_feed_impl_inv in Hr as (_ & _ & _ & _ & _ & _ & _ & ?).
Qed.

Lemma stage1_candidates_have_keyword_witness :
  collect_from_source (with_feeds demo_world demo_feed) "Demo"
    {| base_url := "https://x.test"; rss_feeds := ["https://x.test/feed"]%string;
       sitemap_url := Some "https://x.test/news.xml"%string |}
  = [demo_candidate; demo_rss_candidate]
  /\ exists keyword,
       keyword ∈ luxury_keywords
       /\ occurs_in (lower keyword)
            (lower (fmt_pair (title demo_rss_candidate) (url demo_rss_candidate))).
Proof.
  assert (collect_from_source (with_feeds demo_world demo_feed) "Demo"
            {| base_url := "https://x.test"; rss_feeds := ["https://x.test/feed"]%string;
               sitemap_url := Some "https://x.test/news.xml"%string |}
          = [demo_candidate; demo_rss_candidate]) as E by (vm_compute; reflexivity).
  split; [exact E|].
  apply (stage1_candidates_have_keyword (with_feeds demo_world demo_feed) demo_feed "Demo"
           {| base_url := "https://x.test"; rss_feeds := ["https://x.test/feed"]%string;
              sitemap_url := Some "https://x.test/news.xml"%string |}
           demo_rss_candidate).
  - intros publication feed_url. reflexivity.
  - rewrite E. right. left.
Defined.

(** ** The relevance checker and the collector *)

(** X22: the checker shows what the collector stores.  For a candidate
    without a title (a sitemap candidate) whose page has one, whenever
    the content stage returns an article, [check_article_relevance] on
    the same URL completes, and it reports the title, the score, the
    keywords and the author stored in the article; its verdict is the
    one of that score and of the luxury validation of the article, which
    the collector does not consult. *)
Theorem checker_reports_collector_score (w : World)
    (candidate enhanced : ArticleCandidate) :
  extract_full_content w candidate = Some enhanced ->
  title candidate = EmptyString ->
  title enhanced <> EmptyString ->
  exists report,
    check_article_relevance w (url candidate) = CheckDone report
    /\ report_title report = title enhanced
    /\ report_content_score report
       = (relevance_score enhanced, keywords_found enhanced)
    /\ report_author report = author enhanced
    /\ report_verdict report
       = final_verdict (relevance_score enhanced)
           (is_luxury_relevant_content (title enhanced) (full_content enhanced)).
Proof.
  intros (response & article & Hreq & Hst & Hparse & Hlen & _ & _ & _ & Hc & Ht & Hs & Hk
          & Ha & _)%extract_full_content_inv Hempty Hne.
  rewrite Hempty in Ht. cbn [String.eqb] in Ht.
  unfold check_article_relevance. rewrite Hreq, Hst, Hparse. cbn [Z.eqb Pos.eqb negb].
  assert (String.eqb (art_text article) "" = false) as ->.
  { apply String.eqb_neq. intros E. rewrite E in Hlen. simpl in Hlen. lia. }
  rewrite (proj2 (Nat.ltb_ge _ 100)) by lia. cbn [orb].
  rewrite Ht in Hne. apply String.eqb_neq in Hne. rewrite Hne. cbv zeta.
  eexists. split; [reflexivity|].
  cbn [report_title report_content_score report_author report_verdict].
  rewrite Hs, Hk, Ha, Hc, Ht. split_and!.
  - reflexivity.
  - by destruct (calculate_relevance_score (art_title article) (art_text article)).
  - reflexivity.
  - reflexivity.
Qed.

Lemma checker_reports_collector_score_witness :
  exists report,
    check_article_relevance demo_world (url demo_candidate) = CheckDone report
    /\ report_title report = title demo_enhanced
    /\ report_content_score report
       = (relevance_score demo_enhanced, keywords_found demo_enhanced)
    /\ report_author report = author demo_enhanced
    /\ report_verdict report
       = final_verdict (relevance_score demo_enhanced)
           (is_luxury_relevant_content (title demo_enhanced)
              (full_content demo_enhanced)).
Proof.
  apply (checker_reports_collector_score demo_world demo_candidate demo_enhanced).
  - vm_compute. reflexivity.
  - reflexivity.
  - discriminate.
Defined.

(** The verdict in the demo run: the checker rejects the article the
    collector returns. *)
Example collected_article_rejected_by_checker :
  final_verdict (relevance_score demo_enhanced)
    (is_luxury_relevant_content (title demo_enhanced) (full_content demo_enhanced))
  = RejectedBoth
  /\ collect_top_3_per_publication demo_world demo_sources None = [demo_enhanced].
Proof. split; vm_compute; reflexivity. Qed.

(** X23: the two length thresholds.  A page whose extracted text has
    between 100 and 149 characters is judged by the checker, possibly as
    one that would be collected, while the content stage of the collector
    always discards it. *)
Theorem checker_judges_articles_collector_discards (w : World)
    (candidate : ArticleCandidate) (response : Response) (article : ParsedArticle) :
  make_request w (url candidate) 20 = Return response ->
  status_code response = 200%Z ->
  article_parse w (url candidate) (text response) = Some article ->
  100 <= String.length (art_text article) < 150 ->
  extract_full_content w candidate = None
  /\ exists report,
       check_article_relevance w (url candidate) = CheckDone report
       /\ report_verdict report
          = final_verdict (report_content_score report).1 (report_is_relevant report).
Proof.
  intros Hreq Hst Hparse [Hlo Hhi].
  assert (String.eqb (art_text article) "" = false) as Hne.
  { apply String.eqb_neq. intros E. rewrite E in Hlo. simpl in Hlo. lia. }
  split.
  - unfold extract_full_content. rewrite Hreq, Hst, Hparse. cbn [Z.eqb Pos.eqb negb].
    rewrite Hne. cbn [orb]. by rewrite (proj2 (Nat.ltb_lt _ 150)) by lia.
  - unfold check_article_relevance. rewrite Hreq, Hst, Hparse. cbn [Z.eqb Pos.eqb negb].
    rewrite Hne. cbn [orb]. rewrite (proj2 (Nat.ltb_ge _ 100)) by lia.
    cbv zeta. eexists. split; reflexivity.
Qed.

Lemma checker_judges_articles_collector_discards_witness :
  extract_full_content short_page_world
    (sitemap_candidate "Demo" ("https://x.test/diamond-ring-note"%string, 0%Z)) = None
  /\ exists report,
       check_article_relevance short_page_world "https://x.test/diamond-ring-note"
       = CheckDone report
       /\ report_verdict report
          = final_verdict (report_content_score report).1 (report_is_relevant report).
Proof.
  apply (checker_judges_articles_collector_discards short_page_world
           (sitemap_candidate "Demo" ("https://x.test/diamond-ring-note"%string, 0%Z))
           {| status_code := 200; text := "https://x.test/diamond-ring-note";
              content := String.list_byte_of_string "https://x.test/diamond-ring-note" |}
           {| art_title := "Diamond ring sold";
              art_text := "A diamond ring by Cartier was sold at auction" +:+ run "." 75;
              art_authors := [];
              meta_description := "" |}).
  - reflexivity.
  - reflexivity.
  - reflexivity.
  - vm_compute. lia.
Defined.

(** The short page would be collected according to the checker. *)
Example short_page_verdict :
  match check_article_relevance short_page_world "https://x.test/diamond-ring-note" with
  | CheckDone report => report_verdict report = WouldBeCollected
  | _ => False
  end.
Proof. vm_compute. reflexivity. Qed.

(** ** Validation and score *)

Lemma occurs_in_trans (a b c : string) :
  occurs_in a b -> occurs_in b c -> occurs_in a c.
Proof.
  intros (p1 & q1 & ->) (p & q & ->).
  exists (p +:+ p1), (q1 +:+ q). by rewrite !append_assoc.
Qed.

(** Every other core term contains a configured keyword. *)
Lemma core_terms_contain_keyword (term : string) :
  term ∈ core_luxury_terms ->
  term ∈ unscored_core_terms
  \/ exists keyword, keyword ∈ luxury_keywords /\ occurs_in (lower keyword) term.
Proof.
  intros Hin.
  pose proof (forallb_elem_of
    (fun term => str_in term unscored_core_terms
                 || existsb (fun keyword => contains (lower keyword) term) luxury_keywords)
    core_luxury_terms) as H.
  specialize (H ltac:(vm_compute; reflexivity) term Hin). cbv beta in H.
  apply orb_true_iff in H as [H|H].
  - left. by apply str_in_spec.
  - right. apply existsb_elem_of in H as (keyword & Hk & Hc).
    exists keyword. by rewrite <- contains_spec.
Qed.

Lemma calculate_relevance_score_found (title content : string) :
  (calculate_relevance_score title content).2
  = matched (lower (fmt_pair title content)) luxury_keywords.
Proof. rewrite calculate_relevance_score_grid. cbn [snd]. reflexivity. Qed.

(** X24: validation without a score.  A text can pass the luxury
    validation although Stage 2 finds no keyword in it (score 0.0) only
    through one of seven core terms: jeweler, jeweller, earring, ring,
    gemstone, pearl, haute joaillerie.  Every other core term contains a
    configured keyword, so a text with such a term has a positive
    score. *)
Theorem validated_without_keyword (title content : string) :
  is_luxury_relevant_content title content = true ->
  (calculate_relevance_score title content).2 = [] ->
  exists term,
    term ∈ unscored_core_terms
    /\ occurs_in term (lower (fmt_pair title content)).
Proof.
  intros (term & Hterm & Hocc)%is_luxury_relevant_content_spec Hfound.
  destruct (core_terms_contain_keyword term Hterm) as [Hu|(keyword & Hk & Hkt)].
  - by exists term.
  - exfalso.
    assert (keyword ∈ matched (lower (fmt_pair title content)) luxury_keywords) as Hm.
    { apply matched_elem_of. split; [done|]. by eapply occurs_in_trans. }
    rewrite <- calculate_relevance_score_found, Hfound in Hm.
    by apply elem_of_nil in Hm.
Qed.

Lemma validated_without_keyword_witness :
  exists term,
    term ∈ unscored_core_terms
    /\ occurs_in term (lower (fmt_pair "Market report" "Prices rose during the spring")).
Proof.
  apply (validated_without_keyword "Market report" "Prices rose during the spring").
  - vm_compute. reflexivity.
  - vm_compute. reflexivity.
Defined.

(** ** Author extraction *)

Lemma author_of_entries_truthy (entries : list json) (author : json) :
  author_of_entries entries = Some author -> truthy author = true.
Proof.
  induction entries as [|entry rest IH]; [done|].
  destruct entry as [| | | | | |members]; cbn [author_of_entries]; try exact IH.
  destruct (assoc "author" members) as [author_field|]; [|exact IH].
  cbv zeta. destruct (truthy (_get_author_from_jsonld author_field)) eqn:E; [|exact IH].
  by intros [= <-].
Qed.

Lemma author_of_document_truthy (data author : json) :
  author_of_document data = Some author -> truthy author = true.
Proof.
  destruct data as [| | | | |entries|members]; try done.
  - apply author_of_entries_truthy.
  - cbn [author_of_document].
    destruct (assoc "author" members) as [author_field|]; [|done].
    cbv zeta. destruct (truthy (_get_author_from_jsonld author_field)) eqn:E; [|done].
    by intros [= <-].
Qed.

Lemma author_of_scripts_truthy (scripts : list (option json)) (author : json) :
  author_of_scripts scripts = Some author -> truthy author = true.
Proof.
  induction scripts as [|[data|] rest IH]; cbn [author_of_scripts]; [done| |exact IH].
  destruct (author_of_document data) as [a|] eqn:E; [|exact IH].
  intros [= <-]. by eapply author_of_document_truthy.
Qed.

(** X25: the author is always set.  [extract_author] never returns
    [None].  A value it takes from JSON-LD is never empty: an empty or
    null name is passed over.  When the by-line search only finds
    non-empty names, the result can be empty in one case only: there is
    no usable JSON-LD author and the first author of the parsed article
    is the empty string. *)
Theorem extract_author_always_set (scripts : option (list (option json)))
    (byline_search : string -> option string) (article : ParsedArticle) :
  (forall combined_text name,
      byline_search combined_text = Some name -> name <> EmptyString) ->
  let author := extract_author_impl scripts byline_search article in
  author <> JNull
  /\ (forall l a, scripts = Some l -> author_of_scripts l = Some a ->
                  author = a /\ truthy a = true)
  /\ (truthy author = false ->
        author = JString EmptyString
        /\ exists rest, art_authors article = EmptyString :: rest).
Proof.
  intros Hsearch. cbv zeta. unfold extract_author_impl. cbv zeta.
  destruct (match scripts with
            | Some l => author_of_scripts l
            | None => None
            end) as [a|] eqn:Ej.
  - assert (truthy a = true) as Ha.
    { destruct scripts as [l|]; [|done]. by eapply author_of_scripts_truthy. }
    split_and!.
    + intros ->. done.
    + intros l a' -> Hl. rewrite Hl in Ej. injection Ej as ->. done.
    + congruence.
  - split_and!.
    + destruct (art_authors article); [|done]. by destruct (byline_search _).
    + intros l a' -> Hl. congruence.
    + destruct (art_authors article) as [|first rest].
      * destruct (byline_search _) as [name|] eqn:Es; [|done].
        apply Hsearch in Es. cbn [truthy]. apply String.eqb_neq in Es.
        by rewrite Es.
      * cbn [truthy]. intros Hf%negb_false_iff%String.eqb_eq. subst first.
        split; [done|]. by exists rest.
Qed.

Lemma extract_author_always_set_witness :
  extract_author_impl
    (Some [None;
           Some (JObject [("author"%string, JArray [JObject [("name"%string, JString "")]])]);
           Some (JArray [JObject [("author"%string,
                                   JObject [("name"%string, JString "Jane Doe")])]])])
    (fun _ => None)
    {| art_title := "t"; art_text := "x"; art_authors := ["Staff"%string];
       meta_description := "" |}
  = JString "Jane Doe"
  /\ JString "Jane Doe" <> JNull.
Proof.
  assert (extract_author_impl
            (Some [None;
                   Some (JObject [("author"%string,
                                   JArray [JObject [("name"%string, JString "")]])]);
                   Some (JArray [JObject [("author"%string,
                                           JObject [("name"%string, JString "Jane Doe")])]])])
            (fun _ => None)
            {| art_title := "t"; art_text := "x"; art_authors := ["Staff"%string];
               meta_description := "" |}
          = JString "Jane Doe") as E by (vm_compute; reflexivity).
  split; [exact E|]. rewrite <- E.
  apply (extract_author_always_set _ (fun _ => None)). discriminate.
Defined.

(** ** The articles of the final output *)

Lemma publication_top_3_elem_of (w : World) (name : string) (source_info : SourceInfo)
    (article : ArticleCandidate) :
  article ∈ publication_top_3 w name source_info ->
  exists candidate,
    candidate ∈ collect_from_source w name source_info
    /\ extract_full_content w candidate = Some article.
Proof.
  rewrite publication_top_3_cases. unfold select_top_3.
  intros Hin. apply (fun H => elem_of_sublist _ _ _ H (sublist_take _ _)) in Hin.
  rewrite (sort_by_score_desc_perm _), download_and_score_omap in Hin.
  apply list_elem_of_omap in Hin as (candidate & Hc & He).
  exists candidate. split; [|done].
  by apply (fun H => elem_of_sublist _ _ _ H (sublist_take _ _)) in Hc.
Qed.

Lemma collect_top_3_elem_of (w : World) (target_sources : list (string * SourceInfo))
    (sources_subset : option (list string)) (article : ArticleCandidate) :
  article ∈ collect_top_3_per_publication w target_sources sources_subset ->
  exists name source_info,
    lookup_source target_sources name = Some source_info
    /\ article ∈ publication_top_3 w name source_info.
Proof.
  unfold collect_top_3_per_publication. cbv zeta.
  intros (name & _ & Hin)%list_elem_of_In%in_flat_map.
  apply list_elem_of_In in Hin.
  destruct (lookup_source target_sources name) as [source_info|] eqn:E;
    [|by apply elem_of_nil in Hin].
  by exists name, source_info.
Qed.

(** X26: the articles of the final output.  Every article returned by
    [collect_top_3_per_publication] went through the content stage: its
    content has at least 150 characters, its score and keywords are those
    of [calculate_relevance_score] on its own title and content, and its
    score is a number between 0.0 and the maximum. *)
Theorem final_articles_are_scored (w : World)
    (target_sources : list (string * SourceInfo))
    (sources_subset : option (list string)) (article : ArticleCandidate) :
  article ∈ collect_top_3_per_publication w target_sources sources_subset ->
  150 <= String.length (full_content article)
  /\ relevance_score article
     = (calculate_relevance_score (title article) (full_content article)).1
  /\ keywords_found article
     = (calculate_relevance_score (title article) (full_content article)).2
  /\ is_nan (relevance_score article) = false
  /\ (0 <=? relevance_score article)%float = true
  /\ (relevance_score article <=? 176.5 * 1.2 * 1.4)%float = true.
Proof.
  intros (name & source_info & _ & Hin)%collect_top_3_elem_of.
  apply publication_top_3_elem_of in Hin as (candidate & _ & He).
  apply extract_full_content_inv in He
    as (response & parsed & _ & _ & _ & Hlen & _ & _ & _ & Hc & _ & Hs & Hk & _).
  rewrite Hs. split_and!; try done.
  - by rewrite Hc.
  - apply calculate_relevance_score_not_nan.
  - pose proof (calculate_relevance_score_grid (title article) (full_content article))
      as Hg. cbv zeta in Hg. rewrite Hg. cbn [fst].
    change 0%float with (grid_score 0 0).
    apply grid_score_mono; [lia|apply bonus_class_lt|lia|].
    etrans; [apply units_sum_matched_le|]. vm_compute. lia.
  - pose proof (calculate_relevance_score_grid (title article) (full_content article))
      as Hg. cbv zeta in Hg. rewrite Hg. cbn [fst].
    replace (176.5 * 1.2 * 1.4)%float with (grid_score 2 353)
      by (vm_compute; reflexivity).
    pose proof (bonus_class_lt
                  (length (matched (lower (fmt_pair (title article) (full_content article)))
                                   luxury_keywords))).
    apply grid_score_mono; [lia|lia| |unfold grid_max; lia].
    etrans; [apply units_sum_matched_le|]. vm_compute. lia.
Qed.

Lemma final_articles_are_scored_witness :
  collect_top_3_per_publication demo_world demo_sources None = [demo_enhanced]
  /\ 150 <= String.length (full_content demo_enhanced)
  /\ relevance_score demo_enhanced
     = (calculate_relevance_score (title demo_enhanced) (full_content demo_enhanced)).1.
Proof.
  assert (collect_top_3_per_publication demo_world demo_sources None = [demo_enhanced])
    as E by (vm_compute; reflexivity).
  split; [exact E|].
  destruct (final_articles_are_scored demo_world demo_sources None demo_enhanced)
    as (H1 & H2 & _).
  - rewrite E. left.
  - split; [exact H1 | exact H2].
Defined.

(** X27: the label of an article.  When the feeds are read by
    [try_rss_feed], every article collected for a publication carries the
    name of that publication, whether its candidate came from the sitemap
    or from a feed. *)
Theorem articles_carry_publication_name (w : World) (fw : FeedWorld)
    (name : string) (source_info : SourceInfo) (article : ArticleCandidate) :
  (forall publication feed_url,
      try_rss_feed w publication feed_url = try_rss_feed_impl w fw publication feed_url) ->
  article ∈ publication_top_3 w name source_info ->
  publication article = name.
Proof.
  intros Hfeeds (candidate & Hin & He)%publication_top_3_elem_of.
  apply extract_full_content_inv in He
    as (response & parsed & _ & _ & _ & _ & _ & Hp & _).
  rewrite Hp. clear Hp.
  apply (fun H => elem_of_sublist _ _ _ H (remove_duplicates_sublist _)) in Hin.
  rewrite merged_candidates_cases in Hin.
  assert (candidate ∈ sitemap_part w name source_info
          \/ candidate ∈ try_multiple_rss_feeds w name (rss_feeds source_info))
    as [Hs|Hr].
  { destruct (_ <? 10)%nat; [by apply elem_of_app in Hin | by left]. }
  - unfold sitemap_part in Hs.
    destruct (sitemap_url source_info) as [u|]; [|by apply elem_of_nil in Hs].
    destruct (String.eqb u ""); [by apply elem_of_nil in Hs|].
    by apply fetch_sitemap_articles_elem_of in Hs as (entry & _ & ->).
  - unfold try_multiple_rss_feeds in Hr.
    apply list_elem_of_In, in_flat_map in Hr as (feed_url & _ & Hr).
    apply list_elem_of_In in Hr. rewrite Hfeeds in Hr.
    by apply try_rss_feed_impl_inv in Hr as (_ & _ & ? & _).
Qed.

Lemma articles_carry_publication_name_witness :
  publication demo_enhanced = "Demo"%string.
Proof.
  apply (articles_carry_publication_name (with_feeds demo_world demo_feed) demo_feed
           "Demo"
           {| base_url := "https://x.test"; rss_feeds := ["https://x.test/feed"]%string;
              sitemap_url := Some "https://x.test/news.xml"%string |}
           demo_enhanced).
  - intros publication feed_url. reflexivity.
  - assert (publication_top_3 (with_feeds demo_world demo_feed) "Demo"
              {| base_url := "https://x.test"; rss_feeds := ["https://x.test/feed"]%string;
                 sitemap_url := Some "https://x.test/news.xml"%string |}
            = [demo_enhanced]) as -> by (vm_compute; reflexivity).
    left.
Defined.
